(** * Indispenso: commands, registered agents and the agent store

    A shallow embedding of the command object ([Cmd], client.go), the
    validation rule constructor, the registered agent ([RegisteredClient],
    server.go) and the agent registry ([AgentStore], agents.go), with the
    properties of the design document checked against it.

    Conventions.
    - Go [string]s are [string]s, Go [int]/[int64] are [Z] (no arithmetic
      in the modelled code can overflow: only comparisons are made).
    - Go maps are [gmap]s; [for ... range m] visits [map_to_list m] (Go
      leaves the order open; no result below depends on it).
    - [*Cmd] pointers are addresses into a heap [gmap positive Cmd]; the
      two maps of an agent alias the same command object.
    - [log.Printf] and [audit.Log] lines are not part of the model. *)

From Stdlib Require Import ZArith String Ascii List Bool Lia.
From stdpp Require Import base option list strings gmap fin_maps.

Local Open Scope string_scope.
Local Open Scope list_scope.
Local Open Scope Z_scope.

(** ** Strings *)

Module GoStrings.

(** [len(s)] of Go, on the model's strings. *)
Definition len (s : string) : Z := Z.of_nat (String.length s).

(** [strings.HasPrefix(s, p)]. *)
Fixpoint HasPrefix (s p : string) {struct p} : bool :=
  match p, s with
  | EmptyString, _ => true
  | String a p', String b s' => Ascii.eqb a b && HasPrefix s' p'
  | String _ _, EmptyString => false
  end.

(** [strings.Contains(s, substr)]: [substr] occurs somewhere in [s]. *)
Fixpoint Contains (s substr : string) : bool :=
  HasPrefix s substr ||
  match s with
  | EmptyString => false
  | String _ s' => Contains s' substr
  end.

(** [s == t] on strings. *)
Definition eqs (s t : string) : bool := bool_decide (s = t).

(** One line of [strings.Split(s, "\n")], accumulated in [cur]. *)
Fixpoint split_from (cur : string) (s : string) : list string :=
  match s with
  | EmptyString => [cur]
  | String c s' =>
      if Ascii.eqb c "010"%char
      then cur :: split_from EmptyString s'
      else split_from (cur ++ String c EmptyString)%string s'
  end.

(** [strings.Split(s, "\n")]: never empty, [Split("", "\n") = [""]]. *)
Definition SplitLines (s : string) : list string := split_from EmptyString s.

End GoStrings.

Import GoStrings.

(** ** The command object (client.go, [type Cmd struct]) *)

Record Cmd := mkCmd {
  Command : string;
  Pending : bool;
  Id : string;
  ClientId : string;
  TemplateId : string;
  ConsensusRequestId : string;
  Signature : string;
  Timeout : Z;
  state : string;
  RequestUserId : string;
  Created : Z;
  ExecutionIterationId : Z;
  BufOutput : list string;
  BufOutputErr : list string
}.

Definition set_state (s : string) (c : Cmd) : Cmd :=
  mkCmd (Command c) (Pending c) (Id c) (ClientId c) (TemplateId c)
        (ConsensusRequestId c) (Signature c) (Timeout c) s (RequestUserId c)
        (Created c) (ExecutionIterationId c) (BufOutput c) (BufOutputErr c).

Definition set_Pending (b : bool) (c : Cmd) : Cmd :=
  mkCmd (Command c) b (Id c) (ClientId c) (TemplateId c)
        (ConsensusRequestId c) (Signature c) (Timeout c) (state c)
        (RequestUserId c) (Created c) (ExecutionIterationId c)
        (BufOutput c) (BufOutputErr c).

Definition set_BufOutput (l : list string) (c : Cmd) : Cmd :=
  mkCmd (Command c) (Pending c) (Id c) (ClientId c) (TemplateId c)
        (ConsensusRequestId c) (Signature c) (Timeout c) (state c)
        (RequestUserId c) (Created c) (ExecutionIterationId c)
        l (BufOutputErr c).

Definition set_BufOutputErr (l : list string) (c : Cmd) : Cmd :=
  mkCmd (Command c) (Pending c) (Id c) (ClientId c) (TemplateId c)
        (ConsensusRequestId c) (Signature c) (Timeout c) (state c)
        (RequestUserId c) (Created c) (ExecutionIterationId c)
        (BufOutput c) l.

(** [newCmd(command, timeout)]. The fresh UUID ([uuidStr()]) and the clock
    reading ([time.Now().Unix()]) are inputs; the fields the composite
    literal leaves out take Go's zero values. [DEFAULT_COMMAND_TIMEOUT] is
    a constant declared outside the modelled files. *)
Definition newCmd (DEFAULT_COMMAND_TIMEOUT : Z) (uuid : string) (now : Z)
    (command : string) (timeout : Z) : Cmd :=
  let timeout := if timeout <? 1 then DEFAULT_COMMAND_TIMEOUT else timeout in
  {| Id := uuid;
     Command := command;
     Pending := true;
     Timeout := timeout;
     state := "pending";
     Created := now;
     BufOutput := [];
     BufOutputErr := [];
     ClientId := "";
     TemplateId := "";
     ConsensusRequestId := "";
     Signature := "";
     RequestUserId := "";
     ExecutionIterationId := 0 |}.

(** ** Validation rules (execution_validation.go) *)

Record ExecutionValidation := mkExecutionValidation {
  RuleId : string;
  Fatal : bool;
  MustContain : bool;
  OutputStream : Z;
  Text : string
}.

(** [newExecutionValidation(txt, fatal, mustContain, outputStream)]; [None]
    is the [nil] result, [uuid] the value of [uuid.NewV4()]. *)
Definition newExecutionValidation (uuid : string) (txt : string) (fatal : bool)
    (mustContain : bool) (outputStream : Z) : option ExecutionValidation :=
  if negb (outputStream =? 1) && negb (outputStream =? 2) then None
  else if len txt <? 1 then None
  else Some {| RuleId := uuid;
               Fatal := true;
               MustContain := true;
               Text := txt;
               OutputStream := 1 |}.

(** ** Process-wide state read by the command methods *)

Record Conf := mkConf {
  Debug : bool;
  ServerEnabled : bool
}.

(** Modelled from the spec: the [Template] type is declared outside the
    modelled files; of a template the command code reads only its ordered
    validation rules. *)
Record Template := mkTemplate {
  ValidationRules : list ExecutionValidation
}.

(** Modelled from the spec: the [ExecutionCoordinatorEntry] type is declared
    outside the modelled files; [Cmd.IsExecution] reads its request id and
    its current iteration. *)
Record ExecutionCoordinatorEntry := mkEntry {
  EntryId : string;
  iteration : Z
}.

(** The agent process ([type Client]): its id and its current token. *)
Record Client := mkClient {
  AgentId : string;
  ClientAuthToken : string
}.

(** The globals [conf], [server.templateStore], [server.executionCoordinator]
    and [client]. [templateStore.Get] and [executionCoordinator.Get] are map
    lookups that give [nil] on a miss. *)
Record Globals := mkGlobals {
  conf : Conf;
  templateStore : gmap string Template;
  executionCoordinator : gmap string ExecutionCoordinatorEntry;
  client : Client
}.

Definition IsExecution (c : Cmd) (entry : ExecutionCoordinatorEntry) : bool :=
  eqs (ConsensusRequestId c) (EntryId entry)
  && (ExecutionIterationId c =? iteration entry).

(** ** Effects of the command methods

    A method of [*Cmd] runs on the command object and leaves a trace of
    what it did to the outside world, oldest event first. *)

Inductive Event :=
| GoNext (ece : ExecutionCoordinatorEntry)   (* go ece.Next() *)
| PutState (agent cmdId st : string)         (* PUT client/agent/cmd/id/state?state=st *)
| PutLogs (agent cmdId : string) (output error : list string)
| AuthServer                                 (* client.AuthServer() *)
| WriteFile (contents : string)              (* ioutil.WriteFile(tmpFileName, ...) *)
| StartProcess                               (* cmd.Start() *)
| KillProcess                                (* cmd.Process.Kill() *)
| RemoveFile.                                (* deferred os.Remove(tmpFileName) *)

Record St := mkSt {
  cmd : Cmd;
  trace : list Event
}.

(** State over [St]; [None] is a recursion budget that ran out. *)
Definition M (A : Type) : Type := St -> option (A * St).

Definition ret {A} (a : A) : M A := fun s => Some (a, s).

Definition bind {A B} (m : M A) (k : A -> M B) : M B :=
  fun s => match m s with
           | Some (a, s') => k a s'
           | None => None
           end.

Definition out_of_fuel {A} : M A := fun _ => None.

Notation "'let!' x ':=' m 'in' k" := (bind m (fun x => k))
  (at level 10, x name, m at level 100, k at level 200).
Notation "m >> k" := (bind m (fun _ => k))
  (at level 100, k at level 200, right associativity).

Definition this : M Cmd := fun s => Some (cmd s, s).

Definition update (f : Cmd -> Cmd) : M unit :=
  fun s => Some (tt, mkSt (f (cmd s)) (trace s)).

Definition emit (e : Event) : M unit :=
  fun s => Some (tt, mkSt (cmd s) (trace s ++ [e])).

(** Running a method on a command, from an empty trace. *)
Definition run {A} (m : M A) (c : Cmd) : option (A * St) := m (mkSt c []).

(** ** Command methods (client.go) *)

(** The inner loop of [_validate]: is there a line containing [text]? *)
Fixpoint line_matched (stream : list string) (text : string) : bool :=
  match stream with
  | [] => false
  | line :: rest => if Contains line text then true else line_matched rest text
  end.

(** The loop of [_validate] over the rules; the result is
    [failedValidation]. [setState] is [c.SetState]. *)
Fixpoint validate_rules (setState : string -> M unit)
    (rules : list ExecutionValidation) : M bool :=
  match rules with
  | [] => ret false
  | v :: rest =>
      let! c := this in
      let stream := if OutputStream v =? 1 then BufOutput c else BufOutputErr c in
      let matched := line_matched stream (Text v) in
      if MustContain v && negb matched then
        setState "failed_validation" >> ret true
      else if negb (MustContain v) && matched then
        setState "failed_validation" >> ret true
      else validate_rules setState rest
  end.

(** The body of [_validate], with its calls of [c.SetState] as [setState]. *)
Definition validate_with (setState : string -> M unit) (g : Globals) : M unit :=
  if negb (ServerEnabled (conf g)) then ret tt
  else
    let! c := this in
    match templateStore g !! TemplateId c with
    | None => ret tt
    | Some template =>
        let! failedValidation := validate_rules setState (ValidationRules template) in
        if negb failedValidation then
          setState "finished" >>
          let! c := this in
          match executionCoordinator g !! ConsensusRequestId c with
          | Some ece => emit (GoNext ece)
          | None => ret tt
          end
        else ret tt
    end.

(** [c.SetState(state)]. [SetState] and [_validate] call each other; the
    budget bounds the depth of that nesting (two levels are ever needed). *)
Fixpoint SetState (fuel : nat) (g : Globals) (new : string) : M unit :=
  match fuel with
  | O => out_of_fuel
  | S fuel' =>
      let! c := this in
      let oldState := state c in
      update (set_state new) >>
      let! c := this in
      if eqs oldState "finished_execution" && eqs (state c) "flushed_logs" then
        validate_with (SetState fuel' g) g
      else if eqs oldState "failed_execution" && eqs (state c) "flushed_logs" then
        update (set_state "failed")
      else ret tt
  end.

Definition _validate (fuel : nat) (g : Globals) : M unit :=
  validate_with (SetState fuel g) g.

(** [c.NotifyServer(state)]. *)
Definition NotifyServer (fuel : nat) (g : Globals) (new : string) : M unit :=
  SetState fuel g new >>
  let! c := this in
  if 0 <? len (Signature c) then
    emit (PutState (AgentId (client g)) (Id c) new)
  else ret tt.

(** [c._flushLogs()]. [json.Marshal] of a map of string slices cannot fail,
    and the outcome of the request is only logged. *)
Definition _flushLogs (g : Globals) : M unit :=
  let! c := this in
  if len (Signature c) <? 1 then ret tt
  else
    emit (PutLogs (AgentId (client g)) (Id c) (BufOutput c) (BufOutputErr c)) >>
    update (set_BufOutput []) >>
    update (set_BufOutputErr []).

(** [c._checkFlushLogs()]. *)
Definition _checkFlushLogs (g : Globals) : M unit :=
  let! c := this in
  if (10 <? Z.of_nat (length (BufOutput c)))
     || (10 <? Z.of_nat (length (BufOutputErr c)))
  then _flushLogs g
  else ret tt.

(** [c.LogOutput(line)]. *)
Definition LogOutput (g : Globals) (line : string) : M unit :=
  update (fun c => set_BufOutput (BufOutput c ++ [line]) c) >>
  _checkFlushLogs g.

(** [c.LogError(line)]. *)
Definition LogError (g : Globals) (line : string) : M unit :=
  update (fun c => set_BufOutputErr (BufOutputErr c ++ [line]) c) >>
  _checkFlushLogs g.

(** [for _, line := range lines { log(line) }]. *)
Fixpoint for_lines (log : string -> M unit) (lines : list string) : M unit :=
  match lines with
  | [] => ret tt
  | line :: rest => log line >> for_lines log rest
  end.

(** ** Signing and execution on the agent *)

(** The library functions [ComputeHmac] is built from:
    [base64.URLEncoding.DecodeString] ([None] for its error),
    [base64.URLEncoding.EncodeToString], and [hmac.New(sha256.New, key)]
    followed by [Write]s of the message and [Sum(nil)]. *)
Class Crypto := {
  URLEncoding_DecodeString : string -> option string;
  URLEncoding_EncodeToString : string -> string;
  hmac_sha256 : string -> string -> string
}.

(** How the spawned process ends, as [Execute] observes it. *)
Inductive ProcOutcome :=
| StartFailed                                        (* cmd.Start() errs *)
| TimedOut (killed : bool) (out outerr : string)     (* time.After fires first *)
| Exited (err : option string) (out outerr : string). (* cmd.Wait() returns *)

Section Signing.
Context `{Crypto}.

(** [c.ComputeHmac(token)]: the two [mac.Write]s feed the command text
    and then the id. *)
Definition ComputeHmac (c : Cmd) (token : string) : string :=
  match URLEncoding_DecodeString token with
  | None => ""
  | Some bytes =>
      URLEncoding_EncodeToString (hmac_sha256 bytes (Command c ++ Id c)%string)
  end.

(** The tail of [Execute] after the process has ended: the buffered
    output is logged line by line, flushed, and the state reported. *)
Definition collect_logs (fuel : nat) (g : Globals) (out outerr : string) : M unit :=
  for_lines (LogOutput g) (SplitLines out) >>
  for_lines (LogError g) (SplitLines outerr) >>
  _flushLogs g >>
  NotifyServer fuel g "flushed_logs".

(** [Execute] from [cmd.Start()] to its last statement; the deferred
    [os.Remove] runs after it on every path. *)
Definition spawn (fuel : nat) (g : Globals) (p : ProcOutcome) : M unit :=
  emit StartProcess >>
  match p with
  | StartFailed => NotifyServer fuel g "failed_execution"
  | TimedOut killed out outerr =>
      NotifyServer fuel g "started_execution" >>
      emit KillProcess >>
      if negb killed then ret tt
      else
        NotifyServer fuel g "killed_execution" >>
        collect_logs fuel g out outerr
  | Exited (Some err) out outerr =>
      NotifyServer fuel g "started_execution" >>
      NotifyServer fuel g "failed_execution" >>
      LogError g err >>
      collect_logs fuel g out outerr
  | Exited None out outerr =>
      NotifyServer fuel g "started_execution" >>
      NotifyServer fuel g "finished_execution" >>
      collect_logs fuel g out outerr
  end.

(** [c.Execute(client)]; [cl = None] is the [nil] client. *)
Definition Execute (fuel : nat) (g : Globals) (cl : option Client)
    (p : ProcOutcome) : M unit :=
  NotifyServer fuel g "validating" >>
  let! c := this in
  let invalid :=
    match cl with
    | Some cl =>
        let expectedMac := ComputeHmac c (ClientAuthToken cl) in
        negb (eqs expectedMac (Signature c)) || (len (Signature c) <? 1)
    | None => false
    end in
  if invalid then
    NotifyServer fuel g "invalid_signature" >>
    emit AuthServer
  else
    NotifyServer fuel g "starting" >>
    let! c := this in
    emit (WriteFile ("#!/bin/bash" ++ String "010" (Command c))%string) >>
    spawn fuel g p >>
    emit RemoveFile.

End Signing.

(** ** The registered agent (server.go, [type RegisteredClient struct])

    [DispatchedCmds] and [Cmds] hold [*Cmd] pointers: addresses into the
    coordinator's heap of command objects. [LastPing] is an instant in
    nanoseconds. [CmdChan] is an unbuffered channel; the model keeps the
    number of [Submit] calls blocked in their send on it. *)

Record RegisteredClient := mkRegisteredClient {
  RegClientId : string;
  AuthToken : string;
  LastPing : Z;
  Tags : list string;
  DispatchedCmds : gmap string positive;
  Cmds : gmap string positive;
  CmdChan : nat
}.

(** Modelled from the spec: the [ConsensusRequest] type is declared outside
    the modelled files; the agent code reads only its id. *)
Record ConsensusRequest := mkConsensusRequest {
  RequestId : string
}.

Definition newRegisteredClient (clientId : string) : RegisteredClient :=
  {| RegClientId := clientId;
     AuthToken := "";
     LastPing := 0;
     Tags := [];
     DispatchedCmds := ∅;
     Cmds := ∅;
     CmdChan := 0 |}.

Definition set_DispatchedCmds (m : gmap string positive) (c : RegisteredClient)
    : RegisteredClient :=
  mkRegisteredClient (RegClientId c) (AuthToken c) (LastPing c) (Tags c)
                     m (Cmds c) (CmdChan c).

(** [client.Submit(cmd)]. [None] is the panic of [cmd.GetId()] on a pointer
    that holds no command. The send on [CmdChan] leaves the caller blocked
    until a long poll receives. *)
Definition Submit (heap : gmap positive Cmd) (cmd : positive)
    (c : RegisteredClient) : option RegisteredClient :=
  match heap !! cmd with
  | None => None
  | Some obj =>
      let pending := <[Id obj := cmd]> (Cmds c) in
      let dispatched := <[Id obj := cmd]> (DispatchedCmds c) in
      Some (mkRegisteredClient (RegClientId c) (AuthToken c) (LastPing c)
              (Tags c) dispatched pending (S (CmdChan c)))
  end.

(** [c.Id()]. *)
Definition AgentIdOf (c : RegisteredClient) : string := RegClientId c.

(** One step of the loop of [AbortExecution], on the map as it is now. *)
Definition abort_step (heap : gmap positive Cmd) (reqId : string)
    (acc : option (gmap string positive)) (kv : string * positive)
    : option (gmap string positive) :=
  match acc with
  | None => None
  | Some m =>
      match heap !! kv.2 with
      | None => None
      | Some obj =>
          if eqs (ConsensusRequestId obj) reqId then Some (delete kv.1 m)
          else Some m
      end
  end.

(** [c.AbortExecution(req)]. *)
Definition AbortExecution (heap : gmap positive Cmd) (req : ConsensusRequest)
    (c : RegisteredClient) : option RegisteredClient :=
  match foldl (abort_step heap (RequestId req)) (Some (DispatchedCmds c))
              (map_to_list (DispatchedCmds c)) with
  | None => None
  | Some m => Some (set_DispatchedCmds m c)
  end.

(** [c.Update(tags)], with the reading of [time.Now()]. *)
Definition Update (now : Z) (tags : list string) (c : RegisteredClient)
    : RegisteredClient :=
  mkRegisteredClient (RegClientId c) (AuthToken c) now tags
                     (DispatchedCmds c) (Cmds c) (CmdChan c).

(** [c.HasTag(s)]. *)
Fixpoint has_tag_loop (tags : list string) (s : string) : bool :=
  match tags with
  | [] => false
  | tag :: rest => if eqs tag s then true else has_tag_loop rest s
  end.

Definition HasTag (c : RegisteredClient) (s : string) : bool :=
  if (length (Tags c) =? 0)%nat then false else has_tag_loop (Tags c) s.

(** The loop of the long poll over the pending map: every command whose
    [Pending] flag is set is collected and its flag cleared, in the command
    object itself. *)
Definition drain_step (acc : option (list positive * gmap positive Cmd))
    (kv : string * positive) : option (list positive * gmap positive Cmd) :=
  match acc with
  | None => None
  | Some (cmds, heap) =>
      match heap !! kv.2 with
      | None => None
      | Some obj =>
          if Pending obj
          then Some (cmds ++ [kv.2], <[kv.2 := set_Pending false obj]> heap)
          else Some (cmds, heap)
      end
  end.

Definition drain (heap : gmap positive Cmd) (c : RegisteredClient)
    : option (list positive * gmap positive Cmd) :=
  foldl drain_step (Some ([], heap)) (map_to_list (Cmds c)).

(** ** The coordinator's registry and heap *)

Record ServerState := mkServerState {
  agents : gmap string RegisteredClient;
  heap : gmap positive Cmd
}.

Inductive CmdsResponse :=
| RespError (msg : string)
| RespCmds (cmds : list positive).

(** [ClientCmds], the long-poll handler. [authorized] is the outcome of
    [auth(r)]. [server.GetClient] panics on an unknown agent (a type
    assertion on a nil interface): [None]. The [select] receives when a
    [Submit] is blocked on the channel and otherwise times out. *)
Definition ClientCmds (authorized : bool) (clientId : string) (s : ServerState)
    : option (CmdsResponse * ServerState) :=
  if negb authorized then Some (RespError "Client not authorized for ClientCmds", s)
  else
    match agents s !! clientId with
    | None => None
    | Some registeredClient =>
        if len (AuthToken registeredClient) <? 1 then
          Some (RespError ("Client " ++ RegClientId registeredClient
                           ++ " auth token not available")%string, s)
        else
          match CmdChan registeredClient with
          | S waiting =>
              match drain (heap s) registeredClient with
              | None => None
              | Some (cmds, heap') =>
                  let rc := mkRegisteredClient
                              (RegClientId registeredClient)
                              (AuthToken registeredClient)
                              (LastPing registeredClient)
                              (Tags registeredClient)
                              (DispatchedCmds registeredClient)
                              (Cmds registeredClient) waiting in
                  Some (RespCmds cmds,
                        mkServerState (<[clientId := rc]> (agents s)) heap')
              end
          | O => Some (RespCmds [], s)
          end
    end.

(** ** Liveness and the agent store (server.go, agents.go) *)

Module AgentStore.
Section Store.

(** The ping interval in seconds, a constant declared outside the
    modelled files. *)
Variable CLIENT_PING_INTERVAL : Z.

(** [c.IsAlive()], with the reading of [time.Now()]. The source compares
    [Duration.Seconds()], a float64, with [float64(CLIENT_PING_INTERVAL*5)];
    on nanosecond instants that is the comparison below as long as five
    intervals stay under 2^24 seconds, where a nanosecond is more than
    half a unit in the last place. *)
Definition IsAlive (now : Z) (c : RegisteredClient) : bool :=
  CLIENT_PING_INTERVAL * 5 * 1000000000 <? now - LastPing c.

(** [a.Add(agent)]. *)
Definition Add (agent : RegisteredClient) (a : gmap string RegisteredClient)
    : gmap string RegisteredClient :=
  <[AgentIdOf agent := agent]> a.

(** [a.RemoveById(Id)]. *)
Definition RemoveById (Id : string) (a : gmap string RegisteredClient)
    : gmap string RegisteredClient :=
  delete Id a.

(** [a.Remove(agent)]. *)
Definition Remove (agent : RegisteredClient) (a : gmap string RegisteredClient)
    : gmap string RegisteredClient :=
  RemoveById (AgentIdOf agent) a.

(** [a.Get(Id)]; [None] is the error result. *)
Definition Get (Id : string) (a : gmap string RegisteredClient)
    : option RegisteredClient :=
  a !! Id.

(** One step of the loop of [Cleanup]. An entry deleted before the loop
    reaches it is not visited, as in Go. *)
Definition cleanup_step (now : Z) (m : gmap string RegisteredClient)
    (kv : string * RegisteredClient) : gmap string RegisteredClient :=
  match m !! kv.1 with
  | None => m
  | Some _ =>
      if negb (IsAlive now kv.2) then delete (AgentIdOf kv.2) m else m
  end.

(** [a.Cleanup()], run at the instant [now]. *)
Definition Cleanup (now : Z) (a : gmap string RegisteredClient)
    : gmap string RegisteredClient :=
  foldl (cleanup_step now) a (map_to_list a).

(** The loop of [List] over [exclude]: [excluded] after it. *)
Fixpoint excluded_loop (agent : RegisteredClient) (exclude : list string) : bool :=
  match exclude with
  | [] => false
  | tag :: rest =>
      if HasTag agent tag then true else excluded_loop agent rest
  end.

(** The loop of [List] over [include]: [match] after it. *)
Fixpoint match_loop (agent : RegisteredClient) (include : list string) : bool :=
  match include with
  | [] => true
  | tag :: rest =>
      if negb (HasTag agent tag) then false else match_loop agent rest
  end.

(** One step of the loop of [List] over the agents. *)
Definition list_step (include exclude : list string)
    (res : list RegisteredClient) (kv : string * RegisteredClient)
    : list RegisteredClient :=
  let agent := kv.2 in
  let excluded :=
    if (0 <? length exclude)%nat then excluded_loop agent exclude else false in
  if excluded then res
  else
    let matched := match_loop agent include in
    if (0 <? length include)%nat && negb matched then res
    else res ++ [agent].

(** [a.List(include, exclude)]. *)
Definition List (include exclude : list string)
    (a : gmap string RegisteredClient) : list RegisteredClient :=
  foldl (list_step include exclude) [] (map_to_list a).

(** One step of the loop of [AbortConsensusExecution]: the agent under
    the key is replaced by what [AbortExecution] leaves of it. *)
Definition abort_agent_step (heap : gmap positive Cmd) (req : ConsensusRequest)
    (acc : option (gmap string RegisteredClient))
    (kv : string * RegisteredClient) : option (gmap string RegisteredClient) :=
  match acc with
  | None => None
  | Some m =>
      match AbortExecution heap req kv.2 with
      | None => None
      | Some agent => Some (<[kv.1 := agent]> m)
      end
  end.

(** [a.AbortConsensusExecution(req)]. *)
Definition AbortConsensusExecution (heap : gmap positive Cmd)
    (req : ConsensusRequest) (a : gmap string RegisteredClient)
    : option (gmap string RegisteredClient) :=
  foldl (abort_agent_step heap req) (Some a) (map_to_list a).

End Store.
End AgentStore.

(** ** What the design document says, in its own words *)

Module Design.

(** "alive iff [now - lastSeen <= 5 * pingInterval]", on nanosecond
    instants and an interval in seconds. *)
Definition alive (pingInterval now : Z) (c : RegisteredClient) : Prop :=
  now - LastPing c <= 5 * pingInterval * 1000000000.

(** "[text] as a substring" of a line. *)
Definition substring (text line : string) : Prop :=
  exists pre post, line = (pre +:+ text +:+ post).

(** The stream a rule selects: 1 is the stdout buffer, 2 the stderr
    buffer. *)
Definition selected_stream (c : Cmd) (v : ExecutionValidation) : list string :=
  if OutputStream v =? 1 then BufOutput c
  else if OutputStream v =? 2 then BufOutputErr c
  else [].

(** "A rule matches when the selected stream has any buffered line that
    contains [text] as a substring." *)
Definition rule_matches (c : Cmd) (v : ExecutionValidation) : Prop :=
  exists line, line ∈ selected_stream c v /\ substring (Text v) line.

(** A rule is violated when it must match and does not, or must not
    match and does. *)
Definition rule_violated (c : Cmd) (v : ExecutionValidation) : Prop :=
  (MustContain v = true /\ ~ rule_matches c v)
  \/ (MustContain v = false /\ rule_matches c v).

(** The agents [List(I, E)] is to return: tag set a superset of [I] and
    disjoint from [E]. *)
Definition selected (include exclude : list string) (c : RegisteredClient) : Prop :=
  (forall tag, tag ∈ include -> tag ∈ Tags c)
  /\ (forall tag, tag ∈ exclude -> tag ∉ Tags c).

End Design.

(** [c.Sign(client)], on the coordinator. *)
Definition Sign `{Crypto} (c : Cmd) (rc : RegisteredClient) : Cmd :=
  mkCmd (Command c) (Pending c) (Id c) (ClientId c) (TemplateId c)
        (ConsensusRequestId c) (ComputeHmac c (AuthToken rc)) (Timeout c)
        (state c) (RequestUserId c) (Created c) (ExecutionIterationId c)
        (BufOutput c) (BufOutputErr c).

(** "A command never runs unless [HMAC(authToken, commandText ∥ id)] equals
    its signature", with
    [HMAC = base64url(HMAC-SHA256(base64url_decode(authToken), commandText ∥ id))]
    and a signature that is not empty. *)
Definition signature_valid `{Crypto} (cl : Client) (c : Cmd) : Prop :=
  Signature c <> ""
  /\ exists key, URLEncoding_DecodeString (ClientAuthToken cl) = Some key
       /\ URLEncoding_EncodeToString (hmac_sha256 key (Command c +:+ Id c))
          = Signature c.

(** ** Sample data *)

Module Sample.

(** A stand-in for the library: the identity encoding and a "mac" that
    joins key and message. It only serves to run the definitions. *)
Definition toy : Crypto :=
  {| URLEncoding_DecodeString := fun s => Some s;
     URLEncoding_EncodeToString := fun s => s;
     hmac_sha256 := fun key msg => (key +:+ "|" +:+ msg) |}.

Definition rule (must : bool) (stream : Z) (text : string) : ExecutionValidation :=
  {| RuleId := "r"; Fatal := true; MustContain := must;
     OutputStream := stream; Text := text |}.

Definition entry : ExecutionCoordinatorEntry :=
  {| EntryId := "req1"; iteration := 0 |}.

Definition coordinator : Globals :=
  {| conf := mkConf false true;
     templateStore := {[ "t1" := mkTemplate [rule true 1 "ok"; rule false 2 "ERR"] ]};
     executionCoordinator := {[ "req1" := entry ]};
     client := mkClient "agent1" "tok" |}.

Definition agent_only : Globals :=
  {| conf := mkConf false false;
     templateStore := ∅;
     executionCoordinator := ∅;
     client := mkClient "agent1" "tok" |}.

Definition command (st sig : string) (out err : list string) : Cmd :=
  {| Command := "uptime"; Pending := true; Id := "c1"; ClientId := "agent1";
     TemplateId := "t1"; ConsensusRequestId := "req1"; Signature := sig;
     Timeout := 60; state := st; RequestUserId := "u1"; Created := 0;
     ExecutionIterationId := 0; BufOutput := out; BufOutputErr := err |}.

Definition nine : list string :=
  ["1"; "2"; "3"; "4"; "5"; "6"; "7"; "8"; "9"].

Definition agent (id : string) (ping : Z) (tags : list string) : RegisteredClient :=
  {| RegClientId := id; AuthToken := "tok"; LastPing := ping; Tags := tags;
     DispatchedCmds := ∅; Cmds := ∅; CmdChan := 0 |}.

(** A command of a request, as the coordinator holds it. *)
Definition dispatched (id req : string) (pending : bool) : Cmd :=
  {| Command := "uptime"; Pending := pending; Id := id; ClientId := "agent1";
     TemplateId := "t1"; ConsensusRequestId := req; Signature := "sig";
     Timeout := 60; state := "pending"; RequestUserId := "u1"; Created := 0;
     ExecutionIterationId := 0; BufOutput := []; BufOutputErr := [] |}.

(** Three command objects: two of request [req1], one of [req2]. *)
Definition objects (pending : bool) : gmap positive Cmd :=
  {[ 1%positive := dispatched "c1" "req1" pending;
     2%positive := dispatched "c2" "req2" pending;
     3%positive := dispatched "c3" "req1" pending ]}.

Definition busy (id : string) (cmds : gmap string positive) : RegisteredClient :=
  {| RegClientId := id; AuthToken := "tok"; LastPing := 0; Tags := [];
     DispatchedCmds := cmds; Cmds := ∅; CmdChan := 0 |}.

Definition fleet : gmap string RegisteredClient :=
  {[ "agent1" := busy "agent1" {[ "c1" := 1%positive; "c2" := 2%positive ]};
     "agent2" := busy "agent2" {[ "c3" := 3%positive ]} ]}.

(** An agent with a token, right after [Submit] of the command at
    address 1. *)
Definition submitted : RegisteredClient :=
  {| RegClientId := "agent1"; AuthToken := "tok"; LastPing := 0; Tags := [];
     DispatchedCmds := {[ "c1" := 1%positive ]};
     Cmds := {[ "c1" := 1%positive ]}; CmdChan := 1 |}.

(** One second, in the unit of [LastPing]. *)
Definition second : Z := 1000000000.

(** At the instant [1000 * second]: one agent pinged just now, one
    pinged a thousand seconds ago. *)
Definition pinged : gmap string RegisteredClient :=
  {[ "fresh" := agent "fresh" (1000 * second) [];
     "stale" := agent "stale" 0 [] ]}.

End Sample.

(** ** Notions used in the statements *)

(** The test of [_validate] on one rule, as the loop makes it. *)
Definition violatedb (c : Cmd) (v : ExecutionValidation) : bool :=
  let stream := if OutputStream v =? 1 then BufOutput c else BufOutputErr c in
  let matched := line_matched stream (Text v) in
  (MustContain v && negb matched) || (negb (MustContain v) && matched).

(** The later state continues the earlier one: its trace only grew, and
    the signed fields of the command are the same. *)
Definition extends (s s' : St) : Prop :=
  (exists t, trace s' = trace s ++ t)
  /\ Command (cmd s') = Command (cmd s)
  /\ Id (cmd s') = Id (cmd s)
  /\ Signature (cmd s') = Signature (cmd s).

(** A method that always returns, continuing the state it was given. *)
Definition total {A} (m : M A) : Prop :=
  forall s, exists a s', m s = Some (a, s') /\ extends s s'.

(** The request the agent sends for a state, if the command is signed. *)
Definition report (g : Globals) (c : Cmd) (new : string) : list Event :=
  if 0 <? len (Signature c) then [PutState (AgentId (client g)) (Id c) new]
  else [].

(** What [_validate] starts once the rules have passed. *)
Definition next_iteration (g : Globals) (c : Cmd) : list Event :=
  match executionCoordinator g !! ConsensusRequestId c with
  | Some ece => [GoNext ece]
  | None => []
  end.

(** Does the pointer hold a command of the request? *)
Definition of_request (heap : gmap positive Cmd) (reqId : string)
    (p : positive) : bool :=
  match heap !! p with
  | Some obj => eqs (ConsensusRequestId obj) reqId
  | None => false
  end.

(** Every pointer of the map holds a command. *)
Definition pointers_valid (heap : gmap positive Cmd)
    (m : gmap string positive) : Prop :=
  forall k p, m !! k = Some p -> is_Some (heap !! p).

(** The test [List] makes on one agent. *)
Definition listed (include exclude : list string) (c : RegisteredClient) : bool :=
  negb (if (0 <? length exclude)%nat
        then AgentStore.excluded_loop c exclude else false)
  && negb ((0 <? length include)%nat && negb (AgentStore.match_loop c include)).

(** "Removed from the pending map": the map has no entry under the id. *)
Definition removed_from_pending (id : string) (c : RegisteredClient) : Prop :=
  Cmds c !! id = None.

(** ** Further operations of the coordinator (server.go) *)

(** [strings.Split(s, sep)] for a one-byte separator: the piece being read
    is [cur]. *)
Fixpoint split_on (sep : ascii) (cur : string) (s : string) : list string :=
  match s with
  | EmptyString => [cur]
  | String c s' =>
      if Ascii.eqb c sep
      then cur :: split_on sep EmptyString s'
      else split_on sep (cur +:+ String c EmptyString) s'
  end.

(** [strings.Split(s, ",")]. *)
Definition SplitComma (s : string) : list string := split_on "," EmptyString s.

(** [c.Commands()]: the slice is filled in the order of the range. *)
Definition Commands (c : RegisteredClient) : list positive :=
  foldl (fun commands kv => commands ++ [kv.2]) []
        (map_to_list (DispatchedCmds c)).

(** [a.ListCommands()]. *)
Definition ListCommands (a : gmap string RegisteredClient)
    : gmap string (list positive) :=
  foldl (fun commands kv => <[kv.1 := Commands kv.2]> commands) ∅
        (map_to_list a).

(** One step of the loop of [GetDispatchedCmds]: the map built so far and
    the [dirty] flag. *)
Definition purge_step (heap : gmap positive Cmd) (maxAge : Z)
    (acc : option (gmap string positive * bool)) (kv : string * positive)
    : option (gmap string positive * bool) :=
  match acc with
  | None => None
  | Some (newMap, dirty) =>
      match heap !! kv.2 with
      | None => None
      | Some d =>
          if maxAge <=? Created d
          then Some (<[kv.1 := kv.2]> newMap, dirty)
          else Some (newMap, true)
      end
  end.

(** [c.GetDispatchedCmds()], with the reading of [time.Now().Unix()]: the
    map returned and the agent afterwards. *)
Definition GetDispatchedCmds (now : Z) (heap : gmap positive Cmd)
    (c : RegisteredClient) : option (gmap string positive * RegisteredClient) :=
  let maxAge := now - 14 * 86400 in
  match foldl (purge_step heap maxAge) (Some (∅, false))
              (map_to_list (DispatchedCmds c)) with
  | None => None
  | Some (newMap, dirty) =>
      Some (newMap, if dirty then set_DispatchedCmds newMap c else c)
  end.

(** [s.RegisterClient(clientId, tags)] on the registry and the server's
    tag set, with the reading of [time.Now()]. [agent.Update] changes the
    agent the registry holds under the id. *)
Definition RegisterClient (now : Z) (clientId : string) (tags : list string)
    (a : gmap string RegisteredClient) (serverTags : gmap string bool)
    : gmap string RegisteredClient * gmap string bool :=
  let '(agent, a) :=
    match AgentStore.Get clientId a with
    | Some agent => (agent, a)
    | None =>
        let agent := newRegisteredClient clientId in
        (agent, AgentStore.Add agent a)
    end in
  let a := <[clientId := Update now tags agent]> a in
  (a, foldl (fun m tag => <[tag := true]> m) serverTags tags).

Inductive PingResponse :=
| PingError (msg : string)
| PingAck (server_instance_id : string).

(** [ClientPing]: [tagsParam] is the [tags] query parameter. *)
Definition ClientPing (authorized : bool) (instanceId : string) (now : Z)
    (clientId tagsParam : string)
    (a : gmap string RegisteredClient) (serverTags : gmap string bool)
    : PingResponse * (gmap string RegisteredClient * gmap string bool) :=
  if negb authorized
  then (PingError "Client not authorized for ClientPing", (a, serverTags))
  else
    let tags := SplitComma tagsParam in
    (PingAck instanceId, RegisterClient now clientId tags a serverTags).

(** The body of a log upload as the handler reads it: unreadable, not
    JSON, the JSON [null] (the decoded pointer stays [nil]), or an object
    whose [output] and [error] arrays may be absent. *)
Inductive LogBody :=
| BodyUnreadable
| BodyNotJson
| BodyNull
| BodyLogs (output error : option (list string)).

Inductive Reply :=
| ReplyError (msg : string)
| ReplyOK.

Definition append_output (lines : list string) (c : Cmd) : Cmd :=
  set_BufOutput (BufOutput c ++ lines) c.

Definition append_error (lines : list string) (c : Cmd) : Cmd :=
  set_BufOutputErr (BufOutputErr c ++ lines) c.

(** The command a handler works on: [registeredClient.DispatchedCmds[cmdId]],
    [None] when the entry is missing or holds [nil]. *)
Definition dispatched_cmd (s : ServerState) (registeredClient : RegisteredClient)
    (cmdId : string) : option (positive * Cmd) :=
  match DispatchedCmds registeredClient !! cmdId with
  | None => None
  | Some p =>
      match heap s !! p with
      | None => None
      | Some obj => Some (p, obj)
      end
  end.

(** [PutClientCmdLogs]. [None] is a panic: [server.GetClient] on an unknown
    agent, or the dereference of the [nil] a JSON [null] decodes to. *)
Definition PutClientCmdLogs (authorized : bool) (clientId cmdId : string)
    (body : LogBody) (s : ServerState) : option (Reply * ServerState) :=
  if negb authorized
  then Some (ReplyError "Client not authorized for PutClientCmdLogs", s)
  else
    match agents s !! clientId with
    | None => None
    | Some registeredClient =>
        match dispatched_cmd s registeredClient cmdId with
        | None => Some (ReplyError "Command not found", s)
        | Some (p, obj) =>
            match body with
            | BodyUnreadable => Some (ReplyError "Failed to read body", s)
            | BodyNotJson => Some (ReplyError "Failed to parse json", s)
            | BodyNull => None
            | BodyLogs output error =>
                let obj :=
                  match output with
                  | Some lines => append_output lines obj
                  | None => obj
                  end in
                let obj :=
                  match error with
                  | Some lines => append_error lines obj
                  | None => obj
                  end in
                Some (ReplyOK, mkServerState (agents s) (<[p := obj]> (heap s)))
            end
        end
    end.

(** [PutClientCmdState]: the reply, the state afterwards and what
    [cmd.SetState] started. *)
Definition PutClientCmdState (fuel : nat) (g : Globals) (authorized : bool)
    (clientId cmdId new : string) (s : ServerState)
    : option (Reply * ServerState * list Event) :=
  if negb authorized
  then Some (ReplyError "Client not authorized for PutClientCmdState", s, [])
  else
    match agents s !! clientId with
    | None => None
    | Some registeredClient =>
        match dispatched_cmd s registeredClient cmdId with
        | None => Some (ReplyError "Command not found", s, [])
        | Some (p, obj) =>
            match run (SetState fuel g new) obj with
            | None => None
            | Some (_, r) =>
                Some (ReplyOK,
                      mkServerState (agents s) (<[p := cmd r]> (heap s)),
                      trace r)
            end
        end
    end.

Inductive LogsReply :=
| LogsError (msg : string)
| LogsOK (log_output log_error : list string).

(** [GetClientCmdLogs]; [authorized] is the outcome of [authUser(r)]. *)
Definition GetClientCmdLogs (authorized : bool) (clientId cmdId : string)
    (s : ServerState) : option LogsReply :=
  if negb authorized
  then Some (LogsError "User not authorized for GetClientCmdLogs ")
  else
    match agents s !! clientId with
    | None => None
    | Some registeredClient =>
        match dispatched_cmd s registeredClient cmdId with
        | None => Some (LogsError "Command not found")
        | Some (_, obj) => Some (LogsOK (BufOutput obj) (BufOutputErr obj))
        end
    end.

Definition set_AuthToken (token : string) (c : RegisteredClient)
    : RegisteredClient :=
  mkRegisteredClient (RegClientId c) token (LastPing c) (Tags c)
                     (DispatchedCmds c) (Cmds c) (CmdChan c).

Inductive AuthReply :=
| AuthError (msg : string)
| AuthOK (token token_signature : string).

(** [PostClientAuth]. [generated] is the result of [secureRandomString(32)]
    ([None] for its error), [confToken] is [conf.Token], and
    [sha256_URLEncoded] is [base64.URLEncoding.EncodeToString] of the
    SHA-256 of its argument. *)
Definition PostClientAuth (sha256_URLEncoded : string -> string)
    (confToken : string) (authorized : bool) (clientId : string)
    (generated : option string) (s : ServerState)
    : option (AuthReply * ServerState) :=
  if negb authorized
  then Some (AuthError "User not authorized for PostClientAuth", s)
  else
    match agents s !! clientId with
    | None => None
    | Some registeredClient =>
        match generated with
        | None => Some (AuthError "Failed to generate token", s)
        | Some token =>
            let rc := set_AuthToken token registeredClient in
            Some (AuthOK token (sha256_URLEncoded (token +:+ confToken)),
                  mkServerState (<[clientId := rc]> (agents s)) (heap s))
        end
    end.

(** ** The agent's requests to the coordinator (client.go, [_req]) *)

Module HttpClient.

(** What one [_reqUnsafe] gives: the body, or an error. *)
Inductive Outcome :=
| Body (bytes : string)
| Failure (err : string).

(** The loop of [_req] from iteration [i], with [left] iterations to go:
    [bytes] and [err] are the variables of that name, [slept] the sleeps
    made so far in milliseconds. [reqUnsafe i] is the outcome of the
    request made in iteration [i], [rand i] the value [rand.Intn(50)]
    gives there. *)
Fixpoint req_loop (reqUnsafe : nat -> Outcome) (rand : nat -> Z)
    (left i : nat) (bytes err : option string) (slept : list Z)
    : option string * option string * list Z :=
  match left with
  | O => (bytes, err, slept)
  | S left' =>
      match reqUnsafe i with
      | Body b => (Some b, None, slept)
      | Failure e =>
          let sleep := 25 + rand i + Z.of_nat i ^ 2 * 10000 in
          req_loop reqUnsafe rand left' (S i) None (Some e) (slept ++ [sleep])
      end
  end.

(** [s._req(method, uri, data)]: the result and the sleeps it made. *)
Definition _req (reqUnsafe : nat -> Outcome) (rand : nat -> Z)
    : option string * option string * list Z :=
  req_loop reqUnsafe rand 10 0 None None [].

End HttpClient.

(** ** Notions used in the further statements *)

(** The stdout lines a trace has uploaded, in order. *)
Fixpoint uploaded_output (t : list Event) : list string :=
  match t with
  | [] => []
  | PutLogs _ _ output _ :: t' => output ++ uploaded_output t'
  | _ :: t' => uploaded_output t'
  end.

(** The stderr lines a trace has uploaded, in order. *)
Fixpoint uploaded_error (t : list Event) : list string :=
  match t with
  | [] => []
  | PutLogs _ _ _ error :: t' => error ++ uploaded_error t'
  | _ :: t' => uploaded_error t'
  end.

(** What the part of [Execute] that runs the process may leave in the
    trace of a command with signature [sig]: no file operation and no
    re-authentication, and requests to the coordinator only when the
    command is signed. *)
Definition tidy_event (sig : string) (e : Event) : Prop :=
  match e with
  | WriteFile _ | RemoveFile | AuthServer => False
  | PutState _ _ _ | PutLogs _ _ _ _ => sig <> ""
  | GoNext _ | StartProcess | KillProcess => True
  end.

Definition tidy (s s' : St) : Prop :=
  Signature (cmd s') = Signature (cmd s)
  /\ exists t, trace s' = trace s ++ t
       /\ Forall (tidy_event (Signature (cmd s))) t.

(** No line is lost or uploaded twice: what has been uploaded plus what is
    buffered grows by exactly the lines added. *)
Definition conserves (out err : list string) (s s' : St) : Prop :=
  Signature (cmd s') = Signature (cmd s)
  /\ uploaded_output (trace s') ++ BufOutput (cmd s')
     = (uploaded_output (trace s) ++ BufOutput (cmd s)) ++ out
  /\ uploaded_error (trace s') ++ BufOutputErr (cmd s')
     = (uploaded_error (trace s) ++ BufOutputErr (cmd s)) ++ err.

(** A method that always returns, in a state related to the one given. *)
Definition does {A} (m : M A) (R : St -> St -> Prop) : Prop :=
  forall s, exists a s', m s = Some (a, s') /\ R s s'.

(** A request to the coordinator. *)
Definition is_request (e : Event) : Prop :=
  match e with
  | PutState _ _ _ | PutLogs _ _ _ _ => True
  | _ => False
  end.

(** The lines [Execute] logs as error output for a process outcome. *)
Definition logged_error (err : option string) (outerr : string) : list string :=
  match err with
  | Some msg => msg :: SplitLines outerr
  | None => SplitLines outerr
  end.

(** The lines [Execute] logs for a process outcome, when it gets as far as
    logging: stdout lines and stderr lines. *)
Definition logged (p : ProcOutcome) : option (list string * list string) :=
  match p with
  | Exited err out outerr => Some (SplitLines out, logged_error err outerr)
  | TimedOut true out outerr => Some (SplitLines out, SplitLines outerr)
  | TimedOut false _ _ | StartFailed => None
  end.

(** [Execute] goes on to run the command: there is no client to check
    against, or the signature is valid for the client's token. *)
Definition accepted `{Crypto} (cl : option Client) (c : Cmd) : Prop :=
  match cl with
  | None => True
  | Some client => signature_valid client c
  end.

(** The script [Execute] writes for a command. *)
Definition script (c : Cmd) : string :=
  "#!/bin/bash" +:+ String "010" (Command c).

(** Both relations at once. *)
Definition logs (out err : list string) (s s' : St) : Prop :=
  tidy s s' /\ conserves out err s s'.

(** A signed command has nothing left in its buffers. *)
Definition flushed (s : St) : Prop :=
  Signature (cmd s) <> "" -> BufOutput (cmd s) = [] /\ BufOutputErr (cmd s) = [].

(** A method that always returns, having logged the lines and left a
    signed command flushed. *)
Definition ends (m : M unit) (out err : list string) : Prop :=
  forall s, exists s', m s = Some (tt, s') /\ logs out err s s' /\ flushed s'.

(** * Properties *)

(** ** Strings *)

Lemma HasPrefix_spec s p :
  HasPrefix s p = true <-> exists post, s = p +:+ post.
Proof.
  revert s. induction p as [|a p IH]; intros s; simpl.
  - split; [intros _; by exists s | done].
  - destruct s as [|b s]; simpl.
    + split; [done | intros [post Hp]; discriminate].
    + rewrite andb_true_iff, Ascii.eqb_eq, IH. split.
      * intros [-> [post ->]]. by exists post.
      * intros [post Hp]. injection Hp as -> ->. eauto.
Qed.

Lemma Contains_spec line text :
  Contains line text = true <-> Design.substring text line.
Proof.
  unfold Design.substring.
  induction line as [|a line IH]; simpl.
  - rewrite orb_false_r, HasPrefix_spec. split.
    + intros [post Hp]. by exists "", post.
    + intros (pre & post & Hp). destruct pre; [by exists post | discriminate].
  - rewrite orb_true_iff, HasPrefix_spec, IH. split.
    + intros [[post Hp] | (pre & post & Hp)].
      * by exists "", post.
      * exists (String a pre), post. simpl. by rewrite Hp.
    + intros (pre & post & Hp). destruct pre as [|b pre]; simpl in Hp.
      * left. by exists post.
      * right. injection Hp as -> ->. eauto.
Qed.

Lemma line_matched_spec stream text :
  line_matched stream text = true
  <-> exists line, line ∈ stream /\ Design.substring text line.
Proof.
  induction stream as [|l stream IH]; simpl.
  - split; [done | intros (line & Hin & _); by apply elem_of_nil in Hin].
  - destruct (Contains l text) eqn:Hc.
    + split; [intros _ | done]. exists l. split; [left | by apply Contains_spec].
    + rewrite IH. split.
      * intros (line & Hin & Hs). exists line. split; [by right | done].
      * intros (line & Hin & Hs). apply elem_of_cons in Hin as [-> | Hin].
        -- apply Contains_spec in Hs. congruence.
        -- eauto.
Qed.

Lemma eqs_true s t : eqs s t = true <-> s = t.
Proof. unfold eqs. apply bool_decide_eq_true. Qed.

Lemma eqs_false s t : eqs s t = false <-> s <> t.
Proof. unfold eqs. apply bool_decide_eq_false. Qed.

Lemma len_lt_1 s : (len s <? 1) = true <-> s = "".
Proof.
  unfold len. rewrite Z.ltb_lt. destruct s; simpl; split; try done; lia.
Qed.

Lemma len_pos s : (0 <? len s) = negb (len s <? 1).
Proof. unfold len. destruct s; simpl; [done|]. symmetry. apply negb_true_iff, Z.ltb_ge. lia. Qed.

Example Contains_middle : Contains "all ok here" "ok" = true.
Proof. reflexivity. Qed.

Example Contains_empty_text : Contains "" "" = true.
Proof. reflexivity. Qed.

Example SplitLines_two : SplitLines ("a" +:+ String "010" "b") = ["a"; "b"].
Proof. reflexivity. Qed.

Example SplitLines_empty : SplitLines "" = [""].
Proof. reflexivity. Qed.

(** ** The method monad *)

Lemma extends_refl s : extends s s.
Proof. repeat split; try done. exists []. by rewrite app_nil_r. Qed.

Lemma extends_trans s1 s2 s3 : extends s1 s2 -> extends s2 s3 -> extends s1 s3.
Proof.
  intros ([t1 H1] & Hc1 & Hi1 & Hs1) ([t2 H2] & Hc2 & Hi2 & Hs2).
  repeat split; try congruence.
  exists (t1 ++ t2). by rewrite H2, H1, app_assoc.
Qed.

Lemma total_ret {A} (a : A) : total (ret a).
Proof. intros s. exists a, s. split; [done | apply extends_refl]. Qed.

Lemma total_bind {A B} (m : M A) (k : A -> M B) :
  total m -> (forall a, total (k a)) -> total (let! x := m in k x).
Proof.
  intros Hm Hk s. destruct (Hm s) as (a & s1 & E1 & X1).
  destruct (Hk a s1) as (b & s2 & E2 & X2).
  exists b, s2. unfold bind. rewrite E1. split; [done | by eapply extends_trans].
Qed.

Lemma total_this : total this.
Proof. intros s. exists (cmd s), s. split; [done | apply extends_refl]. Qed.

Lemma total_emit e : total (emit e).
Proof. intros s. eexists tt, _. split; [done|]. repeat split; try done. by exists [e]. Qed.

Lemma total_update f :
  (forall c, Command (f c) = Command c /\ Id (f c) = Id c
             /\ Signature (f c) = Signature c) ->
  total (update f).
Proof.
  intros Hf s. eexists tt, _. split; [done|].
  destruct (Hf (cmd s)) as (? & ? & ?). repeat split; try done.
  exists []. simpl. by rewrite app_nil_r.
Qed.

Lemma total_if {A} (b : bool) (m1 m2 : M A) :
  total m1 -> total m2 -> total (if b then m1 else m2).
Proof. by destruct b. Qed.

Create HintDb total.
#[local] Hint Resolve total_ret total_this total_emit total_if : total.

Ltac total_step :=
  first [ apply total_bind; [| intros ?]
        | apply total_update; intros ?; by repeat split
        | apply total_if
        | solve [auto with total] ].

(** ** State transitions *)

Lemma SetState_plain n g new s :
  new <> "flushed_logs" ->
  SetState (S n) g new s = Some (tt, mkSt (set_state new (cmd s)) (trace s)).
Proof.
  intros Hne. apply eqs_false in Hne.
  unfold SetState, bind, this, update; simpl.
  by rewrite Hne, !andb_false_r.
Qed.

Lemma SetState_flushed_failed n g s :
  state (cmd s) = "failed_execution" ->
  SetState (S n) g "flushed_logs" s
  = Some (tt, mkSt (set_state "failed" (cmd s)) (trace s)).
Proof.
  intros Hst. unfold SetState, bind, this, update; simpl. by rewrite Hst.
Qed.

Lemma SetState_flushed_other n g s :
  state (cmd s) <> "finished_execution" ->
  state (cmd s) <> "failed_execution" ->
  SetState (S n) g "flushed_logs" s
  = Some (tt, mkSt (set_state "flushed_logs" (cmd s)) (trace s)).
Proof.
  intros H1%eqs_false H2%eqs_false.
  unfold SetState, bind, this, update; simpl. by rewrite H1, H2.
Qed.

Lemma validate_rules_run n g rules s :
  validate_rules (SetState (S n) g) rules s
  = if existsb (violatedb (cmd s)) rules
    then Some (true, mkSt (set_state "failed_validation" (cmd s)) (trace s))
    else Some (false, s).
Proof.
  induction rules as [|v rules IH]; [done|].
  cbn [validate_rules existsb]. unfold bind at 1, this at 1.
  unfold violatedb at 1. cbv zeta.
  destruct (MustContain v), (line_matched _ (Text v)); cbn [andb negb orb].
  - apply IH.
  - unfold bind. by rewrite SetState_plain.
  - unfold bind. by rewrite SetState_plain.
  - apply IH.
Qed.

Lemma validate_with_off n g s :
  ServerEnabled (conf g) = false ->
  validate_with (SetState n g) g s = Some (tt, s).
Proof. intros Hoff. unfold validate_with. by rewrite Hoff. Qed.

Lemma validate_with_no_template n g s :
  templateStore g !! TemplateId (cmd s) = None ->
  validate_with (SetState n g) g s = Some (tt, s).
Proof.
  intros Hno. unfold validate_with. destruct (ServerEnabled _); [|done].
  unfold bind, this; simpl. by rewrite Hno.
Qed.

Lemma validate_with_run n g s template :
  ServerEnabled (conf g) = true ->
  templateStore g !! TemplateId (cmd s) = Some template ->
  validate_with (SetState (S n) g) g s
  = Some (tt,
      if existsb (violatedb (cmd s)) (ValidationRules template)
      then mkSt (set_state "failed_validation" (cmd s)) (trace s)
      else mkSt (set_state "finished" (cmd s))
                (trace s ++ next_iteration g (cmd s))).
Proof.
  intros Hon Htmpl. unfold validate_with. rewrite Hon. cbn [negb].
  unfold bind at 1, this at 1. rewrite Htmpl.
  unfold bind at 1. rewrite validate_rules_run.
  destruct (existsb _ _); cbn [negb]; [done|].
  unfold bind at 1. rewrite SetState_plain by done.
  unfold bind, this, next_iteration; simpl.
  destruct (executionCoordinator g !! _); simpl; [done|].
  by rewrite app_nil_r; destruct s.
Qed.

Lemma SetState_flushed_finished n g s :
  state (cmd s) = "finished_execution" ->
  SetState (S n) g "flushed_logs" s
  = _validate n g (mkSt (set_state "flushed_logs" (cmd s)) (trace s)).
Proof.
  intros Hst. unfold SetState at 1, _validate, bind, this, update; simpl.
  by rewrite Hst.
Qed.

Lemma SetState_total n g new : total (SetState (S (S n)) g new).
Proof.
  intros s. destruct (decide (new = "flushed_logs")) as [->|Hne].
  - destruct (decide (state (cmd s) = "finished_execution")) as [Hfin|Hfin].
    + rewrite SetState_flushed_finished by done. unfold _validate.
      destruct (ServerEnabled (conf g)) eqn:Hon.
      * destruct (templateStore g !! TemplateId (cmd s)) as [template|] eqn:Ht.
        -- erewrite validate_with_run by done. simpl.
           eexists tt, _. split; [done|].
           destruct (existsb _ _); repeat split; simpl; eauto.
           exists []. by rewrite app_nil_r.
        -- rewrite validate_with_no_template by done.
           eexists tt, _. split; [done|]. repeat split; simpl.
           exists []. by rewrite app_nil_r.
      * rewrite validate_with_off by done.
        eexists tt, _. split; [done|]. repeat split; simpl.
        exists []. by rewrite app_nil_r.
    + destruct (decide (state (cmd s) = "failed_execution")) as [Hfail|Hfail].
      * rewrite SetState_flushed_failed by done.
        eexists tt, _. split; [done|]. repeat split; simpl.
        exists []. by rewrite app_nil_r.
      * rewrite SetState_flushed_other by done.
        eexists tt, _. split; [done|]. repeat split; simpl.
        exists []. by rewrite app_nil_r.
  - rewrite SetState_plain by done.
    eexists tt, _. split; [done|]. repeat split; simpl.
    exists []. by rewrite app_nil_r.
Qed.

Lemma NotifyServer_plain n g new s :
  new <> "flushed_logs" ->
  NotifyServer (S n) g new s
  = Some (tt, mkSt (set_state new (cmd s)) (trace s ++ report g (cmd s) new)).
Proof.
  intros Hne. unfold NotifyServer, bind at 1. rewrite SetState_plain by done.
  unfold bind, this, report; simpl.
  destruct (0 <? len (Signature (cmd s))); [done|]. by rewrite app_nil_r.
Qed.

Lemma NotifyServer_total n g new : total (NotifyServer (S (S n)) g new).
Proof.
  unfold NotifyServer. apply total_bind; [apply SetState_total|].
  intros _. repeat total_step.
Qed.

(** ** Validation on [flushed_logs] *)

Lemma violatedb_spec c v :
  OutputStream v = 1 \/ OutputStream v = 2 ->
  violatedb c v = true <-> Design.rule_violated c v.
Proof.
  intros Hstream.
  assert (Hm : forall b, line_matched
              (if OutputStream v =? 1 then BufOutput c else BufOutputErr c)
              (Text v) = b ->
            (b = true <-> Design.rule_matches c v)).
  { intros b <-. rewrite line_matched_spec.
    unfold Design.rule_matches, Design.selected_stream.
    destruct Hstream as [-> | ->]; simpl; done. }
  unfold violatedb, Design.rule_violated. cbv zeta.
  destruct (line_matched _ (Text v)) eqn:Hl; specialize (Hm _ eq_refl);
    destruct (MustContain v); simpl; clear Hl Hstream;
    intuition (discriminate || auto).
Qed.

Lemma existsb_violatedb_spec c rules :
  Forall (fun v => OutputStream v = 1 \/ OutputStream v = 2) rules ->
  existsb (violatedb c) rules = true
  <-> exists v, v ∈ rules /\ Design.rule_violated c v.
Proof.
  intros Hall. rewrite existsb_exists. split.
  - intros (v & Hin & Hv). exists v. apply list_elem_of_In in Hin.
    split; [done|]. apply violatedb_spec; [|done].
    by eapply (proj1 (Forall_forall _ _)) in Hall.
  - intros (v & Hin & Hv). exists v. split; [by apply list_elem_of_In|].
    apply violatedb_spec; [|done].
    by eapply (proj1 (Forall_forall _ _)) in Hall.
Qed.

(** C5. On the coordinator, for a command whose template is in the store:
    the transition from [finished_execution] to [flushed_logs] runs the
    template's rules over the buffered lines (stream 1 the stdout buffer,
    stream 2 the stderr buffer, a rule matching when some line contains its
    text). If some rule is violated the command ends in [failed_validation]
    and nothing is started; otherwise it ends in [finished] and the
    coordinator entry of its request, if there is one, is told to start the
    next iteration. *)
Theorem flushed_logs_runs_validation n g c template :
  ServerEnabled (conf g) = true ->
  templateStore g !! TemplateId c = Some template ->
  state c = "finished_execution" ->
  Forall (fun v => OutputStream v = 1 \/ OutputStream v = 2)
         (ValidationRules template) ->
  exists s', run (SetState (S (S n)) g "flushed_logs") c = Some (tt, s')
    /\ ((exists v, v ∈ ValidationRules template /\ Design.rule_violated c v) ->
        s' = mkSt (set_state "failed_validation" c) [])
    /\ (~ (exists v, v ∈ ValidationRules template /\ Design.rule_violated c v) ->
        s' = mkSt (set_state "finished" c) (next_iteration g c)).
Proof.
  intros Hon Htmpl Hst Hstreams. unfold run.
  rewrite SetState_flushed_finished by done. unfold _validate.
  erewrite validate_with_run by done. cbn [cmd trace].
  eexists. split; [done|].
  pose proof (existsb_violatedb_spec c _ Hstreams) as Hspec.
  change (existsb (violatedb (set_state "flushed_logs" c)))
    with (existsb (violatedb c)).
  destruct (existsb (violatedb c) (ValidationRules template)).
  - split; [done|]. intros Hno. destruct Hno. by apply Hspec.
  - split; [|done]. intros Hyes. apply Hspec in Hyes. discriminate.
Qed.

Ltac streams_ok :=
  simpl;
  repeat first [ apply List.Forall_nil
               | apply List.Forall_cons;
                 [(left; reflexivity) || (right; reflexivity)|] ].

Lemma flushed_logs_runs_validation_passes :
  exists s',
    run (SetState 2 Sample.coordinator "flushed_logs")
        (Sample.command "finished_execution" "sig" ["all ok"] ["warn"])
    = Some (tt, s')
    /\ state (cmd s') = "finished"
    /\ trace s' = [GoNext Sample.entry].
Proof.
  destruct (flushed_logs_runs_validation 0 Sample.coordinator
              (Sample.command "finished_execution" "sig" ["all ok"] ["warn"])
              (mkTemplate [Sample.rule true 1 "ok"; Sample.rule false 2 "ERR"])
              eq_refl eq_refl eq_refl ltac:(streams_ok))
    as (s' & Hrun & _ & Hpass).
  exists s'. split; [exact Hrun|].
  rewrite Hpass; [split; reflexivity|].
  intros (v & Hin & Hv).
  assert (Hb : existsb (violatedb
                (Sample.command "finished_execution" "sig" ["all ok"] ["warn"]))
                [Sample.rule true 1 "ok"; Sample.rule false 2 "ERR"] = true).
  { apply existsb_violatedb_spec; [streams_ok | eauto]. }
  vm_compute in Hb. discriminate.
Defined.

Example validation_fails_on_forbidden_text :
  run (SetState 2 Sample.coordinator "flushed_logs")
      (Sample.command "finished_execution" "sig" ["all ok"] ["ERR: disk"])
  = Some (tt, mkSt (Sample.command "failed_validation" "sig" ["all ok"] ["ERR: disk"]) []).
Proof. reflexivity. Qed.

Example validation_skipped_on_agent :
  run (SetState 2 Sample.agent_only "flushed_logs")
      (Sample.command "finished_execution" "sig" [] [])
  = Some (tt, mkSt (Sample.command "flushed_logs" "sig" [] []) []).
Proof. reflexivity. Qed.

(** ** Failure states *)

Lemma failed_execution_flushed_is_failed n g c :
  state c = "failed_execution" ->
  run (SetState (S n) g "flushed_logs") c = Some (tt, mkSt (set_state "failed" c) []).
Proof. intros Hst. unfold run. by rewrite SetState_flushed_failed. Qed.

(** C3. A command in state [killed_execution] that receives [flushed_logs]
    stays in [flushed_logs]: only [failed_execution] is taken on to
    [failed]. *)
Theorem killed_execution_flushed_stays_flushed n g c :
  state c = "killed_execution" ->
  run (SetState (S n) g "flushed_logs") c
  = Some (tt, mkSt (set_state "flushed_logs" c) []).
Proof.
  intros Hst. unfold run. rewrite SetState_flushed_other; [done | |];
    simpl; rewrite Hst; discriminate.
Qed.

Lemma killed_execution_flushed_stays_flushed_sample :
  state (Sample.command "killed_execution" "sig" [] []) = "killed_execution"
  /\ run (SetState 2 Sample.coordinator "flushed_logs")
         (Sample.command "killed_execution" "sig" [] [])
     = Some (tt, mkSt (Sample.command "flushed_logs" "sig" [] []) []).
Proof.
  split; [reflexivity|].
  apply (killed_execution_flushed_stays_flushed 1 Sample.coordinator
           (Sample.command "killed_execution" "sig" [] [])).
  reflexivity.
Defined.

(** ** Constructors *)

(** C10. [newCmd] replaces a timeout below 1 by [DEFAULT_COMMAND_TIMEOUT]
    and keeps any other; the command it returns is in state [pending] with
    [Pending] set. *)
Theorem newCmd_defaults DEFAULT_COMMAND_TIMEOUT uuid now command timeout :
  let c := newCmd DEFAULT_COMMAND_TIMEOUT uuid now command timeout in
  (timeout < 1 -> Timeout c = DEFAULT_COMMAND_TIMEOUT)
  /\ (1 <= timeout -> Timeout c = timeout)
  /\ state c = "pending"
  /\ Pending c = true.
Proof.
  simpl. repeat split.
  - intros Hlt. apply Z.ltb_lt in Hlt. by rewrite Hlt.
  - intros Hge. apply Z.ltb_ge in Hge. by rewrite Hge.
Qed.

Lemma newCmd_defaults_sample :
  Timeout (newCmd 300 "id-1" 1700000000 "uptime" 0) = 300
  /\ Timeout (newCmd 300 "id-1" 1700000000 "uptime" (-5)) = 300
  /\ state (newCmd 300 "id-1" 1700000000 "uptime" 0) = "pending"
  /\ Pending (newCmd 300 "id-1" 1700000000 "uptime" 0) = true.
Proof.
  destruct (newCmd_defaults 300 "id-1" 1700000000 "uptime" 0) as (H0 & _ & Hs & Hp).
  destruct (newCmd_defaults 300 "id-1" 1700000000 "uptime" (-5)) as (H5 & _).
  split; [apply H0; lia|]. split; [apply H5; lia|]. split; [exact Hs | exact Hp].
Defined.

Lemma newExecutionValidation_fields uuid txt fatal mustContain stream r :
  newExecutionValidation uuid txt fatal mustContain stream = Some r ->
  r = mkExecutionValidation uuid true true 1 txt.
Proof.
  unfold newExecutionValidation.
  destruct (_ && _); [done|]. destruct (len txt <? 1); [done|]. by intros [= <-].
Qed.

(** C4. [newExecutionValidation] called with [fatal = false],
    [mustContain = false] and stream 2 returns a rule with [Fatal = true],
    [MustContain = true] and [OutputStream = 1]: only the text is the
    caller's. *)
Theorem newExecutionValidation_ignores_caller :
  newExecutionValidation "r1" "ERROR" false false 2
  = Some {| RuleId := "r1"; Fatal := true; MustContain := true;
            OutputStream := 1; Text := "ERROR" |}.
Proof. reflexivity. Qed.

(** ** Log buffering *)

Lemma _flushLogs_unsigned g s :
  Signature (cmd s) = "" -> _flushLogs g s = Some (tt, s).
Proof.
  intros Hsig. unfold _flushLogs, bind, this. by rewrite Hsig.
Qed.

Lemma _flushLogs_signed g s :
  Signature (cmd s) <> "" ->
  _flushLogs g s
  = Some (tt, mkSt (set_BufOutputErr [] (set_BufOutput [] (cmd s)))
                   (trace s ++ [PutLogs (AgentId (client g)) (Id (cmd s))
                                        (BufOutput (cmd s)) (BufOutputErr (cmd s))])).
Proof.
  intros Hsig. unfold _flushLogs, bind, this, emit, update; simpl.
  destruct (len (Signature (cmd s)) <? 1) eqn:Hlen; [|done].
  by apply len_lt_1 in Hlen.
Qed.

(** What [LogOutput] does with a line: the upload happens when one of the
    buffers holds more than ten lines after the append. *)
Lemma LogOutput_run g line c :
  Signature c <> "" ->
  run (LogOutput g line) c
  = Some (tt,
      if (10 <? Z.of_nat (length (BufOutput c ++ [line])))
         || (10 <? Z.of_nat (length (BufOutputErr c)))
      then mkSt (set_BufOutputErr [] (set_BufOutput [] c))
                [PutLogs (AgentId (client g)) (Id c)
                         (BufOutput c ++ [line]) (BufOutputErr c)]
      else mkSt (set_BufOutput (BufOutput c ++ [line]) c) []).
Proof.
  intros Hsig. unfold run, LogOutput, _checkFlushLogs, bind, update, this; simpl.
  destruct (_ || _); [|done].
  by rewrite _flushLogs_signed.
Qed.

Lemma LogOutput_unsigned g line c :
  Signature c = "" ->
  run (LogOutput g line) c
  = Some (tt, mkSt (set_BufOutput (BufOutput c ++ [line]) c) []).
Proof.
  intros Hsig. unfold run, LogOutput, _checkFlushLogs, bind, update, this; simpl.
  destruct (_ || _); [|done].
  by rewrite _flushLogs_unsigned.
Qed.

(** C9. A signed command with nine buffered stdout lines that logs a tenth
    holds ten lines afterwards and has uploaded nothing: the upload waits
    for the eleventh line. *)
Theorem LogOutput_tenth_line_not_uploaded :
  run (LogOutput Sample.agent_only "10")
      (Sample.command "started_execution" "sig" Sample.nine [])
  = Some (tt, mkSt (Sample.command "started_execution" "sig"
                      (Sample.nine ++ ["10"]) [])
                   []).
Proof. reflexivity. Qed.

Example LogOutput_eleventh_line_uploaded :
  run (LogOutput Sample.agent_only "11")
      (Sample.command "started_execution" "sig" (Sample.nine ++ ["10"]) ["e"])
  = Some (tt, mkSt (Sample.command "started_execution" "sig" [] [])
                   [PutLogs "agent1" "c1" (Sample.nine ++ ["10"; "11"]) ["e"]]).
Proof. reflexivity. Qed.

Lemma _flushLogs_total g : total (_flushLogs g).
Proof. unfold _flushLogs. repeat total_step. Qed.

Lemma _checkFlushLogs_total g : total (_checkFlushLogs g).
Proof.
  unfold _checkFlushLogs. repeat total_step.
Qed.

Lemma LogOutput_total g line : total (LogOutput g line).
Proof.
  unfold LogOutput. repeat total_step.
Qed.

Lemma LogError_total g line : total (LogError g line).
Proof.
  unfold LogError. repeat total_step.
Qed.

Lemma for_lines_total log lines :
  (forall line, total (log line)) -> total (for_lines log lines).
Proof.
  intros Hlog. induction lines as [|line lines IH]; simpl.
  - apply total_ret.
  - apply total_bind; [apply Hlog | by intros _].
Qed.

Lemma collect_logs_total n g out outerr :
  total (collect_logs (S (S n)) g out outerr).
Proof.
  unfold collect_logs.
  apply total_bind; [apply for_lines_total, LogOutput_total | intros _].
  apply total_bind; [apply for_lines_total, LogError_total | intros _].
  apply total_bind; [apply _flushLogs_total | intros _].
  apply NotifyServer_total.
Qed.

(** ** Execution on the agent *)

Lemma spawn_starts n g p s :
  exists s', spawn (S (S n)) g p s = Some (tt, s')
    /\ exists t, trace s' = trace s ++ StartProcess :: t.
Proof.
  assert (Hrest : total (
    match p with
    | StartFailed => NotifyServer (S (S n)) g "failed_execution"
    | TimedOut killed out outerr =>
        NotifyServer (S (S n)) g "started_execution" >>
        emit KillProcess >>
        if negb killed then ret tt
        else
          NotifyServer (S (S n)) g "killed_execution" >>
          collect_logs (S (S n)) g out outerr
    | Exited (Some err) out outerr =>
        NotifyServer (S (S n)) g "started_execution" >>
        NotifyServer (S (S n)) g "failed_execution" >>
        LogError g err >>
        collect_logs (S (S n)) g out outerr
    | Exited None out outerr =>
        NotifyServer (S (S n)) g "started_execution" >>
        NotifyServer (S (S n)) g "finished_execution" >>
        collect_logs (S (S n)) g out outerr
    end)).
  { destruct p as [|killed out outerr|[err|] out outerr];
      repeat first [ apply NotifyServer_total | apply collect_logs_total
                   | apply LogError_total | total_step ]. }
  destruct (Hrest (mkSt (cmd s) (trace s ++ [StartProcess])))
    as ([] & s' & Hrun & [t Ht] & _).
  exists s'. split.
  - unfold spawn, bind at 1, emit at 1. exact Hrun.
  - exists t. rewrite Ht. simpl. by rewrite <- app_assoc.
Qed.

Section Execution.
Context `{Crypto}.

Lemma signature_check cl c :
  negb (eqs (ComputeHmac c (ClientAuthToken cl)) (Signature c))
  || (len (Signature c) <? 1) = false
  <-> signature_valid cl c.
Proof.
  rewrite orb_false_iff, negb_false_iff, eqs_true.
  unfold signature_valid, ComputeHmac.
  rewrite <- (not_true_iff_false (len _ <? 1)), len_lt_1.
  destruct (URLEncoding_DecodeString (ClientAuthToken cl)) as [key|].
  - split.
    + intros [Hmac Hne]. split; [done|]. by exists key.
    + intros [Hne (key' & [= <-] & Hmac)]. done.
  - split.
    + intros [Hmac Hne]. by destruct Hne.
    + intros [_ (key' & Hkey & _)]. discriminate.
Qed.

(** C1. [Execute] with a client always returns. The process is started
    exactly when the signature is not empty and equals
    [base64url(HMAC-SHA256(base64url_decode(authToken), command ∥ id))];
    otherwise the command ends in [invalid_signature], and all that
    happened is the report of the two states (for a signed command) and
    the call of [AuthServer]: no file was written, no process started. *)
Theorem Execute_runs_only_signed n g cl p c :
  exists s', run (Execute (S (S n)) g (Some cl) p) c = Some (tt, s')
    /\ (StartProcess ∈ trace s' <-> signature_valid cl c)
    /\ (~ signature_valid cl c ->
        s' = mkSt (set_state "invalid_signature" c)
                  (report g c "validating"
                   ++ report g c "invalid_signature" ++ [AuthServer])).
Proof.
  unfold run, Execute. unfold bind at 1.
  rewrite NotifyServer_plain by done. unfold bind at 1, this at 1.
  cbn [cmd trace app].
  change (ComputeHmac (set_state "validating" c) (ClientAuthToken cl))
    with (ComputeHmac c (ClientAuthToken cl)).
  change (Signature (set_state "validating" c)) with (Signature c).
  pose proof (signature_check cl c) as Hcheck.
  destruct (negb _ || _) eqn:Hinv.
  - assert (Hnot : ~ signature_valid cl c).
    { intros Hv. apply Hcheck in Hv. discriminate. }
    unfold bind at 1. rewrite NotifyServer_plain by done.
    eexists. split; [reflexivity|]. cbn [cmd trace].
    change (report g (set_state "validating" c)) with (report g c).
    split; [|intros _; by rewrite <- app_assoc].
    split; [|done]. intros Hin. exfalso.
    unfold report in Hin.
    repeat (apply elem_of_app in Hin as [Hin|Hin]);
      repeat match type of Hin with
             | _ ∈ (if ?b then _ else _) => destruct b
             | _ ∈ [] => by apply elem_of_nil in Hin
             | _ ∈ [_] => apply list_elem_of_singleton in Hin; discriminate
             end.
  - unfold bind at 1. rewrite NotifyServer_plain by done.
    unfold bind at 1, this at 1. unfold bind at 1, emit at 1.
    cbn [cmd trace]. unfold bind at 1.
    match goal with
    | |- context [spawn _ _ _ ?s] =>
        destruct (spawn_starts n g p s) as (s1 & -> & t & Ht)
    end.
    eexists. split; [reflexivity|]. cbn [cmd trace].
    split; [|intros Hnot; destruct Hnot; by apply Hcheck].
    split; [intros _; by apply Hcheck|]. intros _.
    rewrite Ht. apply elem_of_app. left. apply elem_of_app. right. left.
Qed.

End Execution.

Section ExecutionSamples.
#[local] Existing Instance Sample.toy.

Example Execute_signed_command_runs :
  run (Execute 2 Sample.agent_only (Some (mkClient "agent1" "tok"))
         (Exited None ("hello" +:+ String "010" "world") ""))
      (Sample.command "pending" "tok|uptimec1" [] [])
  = Some (tt, mkSt (Sample.command "flushed_logs" "tok|uptimec1" [] [])
      [PutState "agent1" "c1" "validating";
       PutState "agent1" "c1" "starting";
       WriteFile ("#!/bin/bash" +:+ String "010" "uptime");
       StartProcess;
       PutState "agent1" "c1" "started_execution";
       PutState "agent1" "c1" "finished_execution";
       PutLogs "agent1" "c1" ["hello"; "world"] [""];
       PutState "agent1" "c1" "flushed_logs";
       RemoveFile]).
Proof. reflexivity. Qed.

Example Execute_other_token_rejects :
  run (Execute 2 Sample.agent_only (Some (mkClient "agent1" "other"))
         (Exited None "hello" ""))
      (Sample.command "pending" "tok|uptimec1" [] [])
  = Some (tt, mkSt (Sample.command "invalid_signature" "tok|uptimec1" [] [])
      [PutState "agent1" "c1" "validating";
       PutState "agent1" "c1" "invalid_signature";
       AuthServer]).
Proof. reflexivity. Qed.

Example Execute_unsigned_rejects :
  run (Execute 2 Sample.agent_only (Some (mkClient "agent1" "tok"))
         (Exited None "hello" ""))
      (Sample.command "pending" "" [] [])
  = Some (tt, mkSt (Sample.command "invalid_signature" "" [] []) [AuthServer]).
Proof. reflexivity. Qed.

End ExecutionSamples.

(** ** Tag selection *)

Lemma has_tag_loop_spec tags s : has_tag_loop tags s = true <-> s ∈ tags.
Proof.
  induction tags as [|tag tags IH]; simpl.
  - split; [done | by intros ?%elem_of_nil].
  - destruct (eqs tag s) eqn:He.
    + apply eqs_true in He as ->. split; [intros _; left | done].
    + apply eqs_false in He. rewrite IH, elem_of_cons.
      split; [by right | intros [Heq | Hin]; [congruence | done]].
Qed.

Lemma HasTag_spec c s : HasTag c s = true <-> s ∈ Tags c.
Proof.
  unfold HasTag. destruct (Tags c) as [|tag tags] eqn:Ht; simpl.
  - split; [done | by intros ?%elem_of_nil].
  - apply (has_tag_loop_spec (tag :: tags)).
Qed.

Lemma excluded_loop_spec c exclude :
  AgentStore.excluded_loop c exclude = false
  <-> forall tag, tag ∈ exclude -> tag ∉ Tags c.
Proof.
  induction exclude as [|t exclude IH]; simpl.
  - split; [by intros _ tag ?%elem_of_nil | done].
  - destruct (HasTag c t) eqn:Hh.
    + apply HasTag_spec in Hh. split; [done|].
      intros Hall. destruct (Hall t); [left | done].
    + rewrite IH. split.
      * intros Hall tag [-> | Hin]%elem_of_cons; [|by apply Hall].
        intros Hin%HasTag_spec. congruence.
      * intros Hall tag Hin. apply Hall. by right.
Qed.

Lemma match_loop_spec c include :
  AgentStore.match_loop c include = true
  <-> forall tag, tag ∈ include -> tag ∈ Tags c.
Proof.
  induction include as [|t include IH]; simpl.
  - split; [by intros _ tag ?%elem_of_nil | done].
  - destruct (HasTag c t) eqn:Hh; simpl.
    + apply HasTag_spec in Hh. rewrite IH. split.
      * intros Hall tag [-> | Hin]%elem_of_cons; [done | by apply Hall].
      * intros Hall tag Hin. apply Hall. by right.
    + split; [done|]. intros Hall.
      assert (Ht : t ∈ Tags c) by (apply Hall; left).
      apply HasTag_spec in Ht. congruence.
Qed.

Lemma listed_spec include exclude c :
  listed include exclude c = true <-> Design.selected include exclude c.
Proof.
  unfold listed, Design.selected.
  rewrite andb_true_iff, !negb_true_iff, <- match_loop_spec, <- excluded_loop_spec.
  destruct exclude as [|e exclude], include as [|i include]; simpl;
    rewrite ?negb_false_iff; split; try done; intros [? ?]; by split.
Qed.

Lemma list_step_listed include exclude res kv :
  AgentStore.list_step include exclude res kv
  = if listed include exclude kv.2 then res ++ [kv.2] else res.
Proof.
  unfold AgentStore.list_step, listed. cbv zeta.
  destruct (if (0 <? length exclude)%nat then _ else false); [done|].
  by destruct ((0 <? length include)%nat && _).
Qed.

Lemma list_fold_filter include exclude res (l : list (string * RegisteredClient)) :
  foldl (AgentStore.list_step include exclude) res l
  = res ++ filter (fun c => listed include exclude c = true) (l.*2).
Proof.
  revert res. induction l as [|kv l IH]; intros res.
  - simpl. by rewrite app_nil_r.
  - cbn [foldl]. rewrite IH, list_step_listed, fmap_cons, filter_cons.
    destruct (listed include exclude kv.2) eqn:Hl.
    + rewrite decide_True by done. by rewrite <- app_assoc.
    + rewrite decide_False by congruence. done.
Qed.

(** C6. [List(include, exclude)] returns exactly the registered agents
    whose tags contain every tag of [include] and no tag of [exclude]; an
    empty list imposes nothing. *)
Theorem List_selects_by_tags include exclude
    (a : gmap string RegisteredClient) (agent : RegisteredClient) :
  agent ∈ AgentStore.List include exclude a
  <-> (exists id, a !! id = Some agent)
      /\ (forall tag, tag ∈ include -> tag ∈ Tags agent)
      /\ (forall tag, tag ∈ exclude -> tag ∉ Tags agent).
Proof.
  unfold AgentStore.List. rewrite list_fold_filter, app_nil_l.
  rewrite list_elem_of_filter, listed_spec, list_elem_of_fmap.
  unfold Design.selected. split.
  - intros [Hsel ([id c] & -> & Hin)]. apply elem_of_map_to_list in Hin.
    split; [by exists id | done].
  - intros [[id Hid] Hsel]. split; [done|].
    exists (id, agent). split; [done | by apply elem_of_map_to_list].
Qed.

(** Every registered agent contributes at most one entry per id. *)
Lemma List_length include exclude (a : gmap string RegisteredClient) :
  length (AgentStore.List include exclude a)
  = length (filter (fun kv => listed include exclude kv.2 = true) (map_to_list a)).
Proof.
  unfold AgentStore.List. rewrite list_fold_filter, app_nil_l.
  induction (map_to_list a) as [|kv l IH]; [done|].
  rewrite fmap_cons, !filter_cons. simpl.
  destruct (decide (listed include exclude kv.2 = true)); simpl; by rewrite IH.
Qed.

(** ** Abort *)

Lemma abort_fold heap reqId (l : list (string * positive)) :
  (forall kp, kp ∈ l -> is_Some (heap !! kp.2)) ->
  forall m : gmap string positive,
  exists m', foldl (abort_step heap reqId) (Some m) l = Some m'
    /\ forall k, m' !! k
         = if existsb (fun kp => eqs kp.1 k && of_request heap reqId kp.2) l
           then None else m !! k.
Proof.
  induction l as [|[k0 p0] l IH]; intros Hvalid m.
  - by exists m.
  - destruct (Hvalid (k0, p0)) as [obj Hobj]; [left|]. simpl in Hobj.
    cbn [foldl]. unfold abort_step at 2. cbn [fst snd]. rewrite Hobj.
    set (m1 := if eqs (ConsensusRequestId obj) reqId then delete k0 m else m).
    destruct (IH (fun kp Hin => Hvalid kp (list_elem_of_further _ _ _ Hin)) m1)
      as (m' & Hfold & Hlook).
    exists m'. split.
    + rewrite <- Hfold. subst m1. by destruct (eqs _ reqId).
    + intros k. rewrite Hlook. cbn [existsb fst snd].
      unfold of_request at 2. rewrite Hobj. subst m1.
      destruct (existsb _ l); [by rewrite orb_true_r|]. rewrite orb_false_r.
      destruct (eqs (ConsensusRequestId obj) reqId).
      * rewrite andb_true_r. destruct (eqs k0 k) eqn:Hk.
        -- apply eqs_true in Hk as ->. apply lookup_delete_eq.
        -- apply eqs_false in Hk. by apply lookup_delete_ne.
      * by rewrite andb_false_r.
Qed.

Lemma AbortExecution_run heap req c :
  pointers_valid heap (DispatchedCmds c) ->
  exists m', AbortExecution heap req c = Some (set_DispatchedCmds m' c)
    /\ forall k, m' !! k
         = match DispatchedCmds c !! k with
           | Some p => if of_request heap (RequestId req) p then None else Some p
           | None => None
           end.
Proof.
  intros Hvalid. unfold AbortExecution.
  destruct (abort_fold heap (RequestId req) (map_to_list (DispatchedCmds c)))
    with (m := DispatchedCmds c) as (m' & -> & Hlook).
  { intros [k p] Hin%elem_of_map_to_list. by eapply Hvalid. }
  exists m'. split; [done|]. intros k. rewrite Hlook.
  destruct (DispatchedCmds c !! k) as [p|] eqn:Hk.
  - destruct (of_request heap (RequestId req) p) eqn:Hreq.
    + assert (Hex : existsb (fun kp => eqs kp.1 k && of_request heap (RequestId req) kp.2)
                      (map_to_list (DispatchedCmds c)) = true); [|by rewrite Hex].
      apply existsb_exists. exists (k, p). split.
      * by apply list_elem_of_In, elem_of_map_to_list.
      * simpl. rewrite Hreq, andb_true_r. by apply eqs_true.
    + destruct (existsb _ _) eqn:Hex; [|done]. exfalso.
      apply existsb_exists in Hex as ([k' p'] & Hin & Hb).
      apply list_elem_of_In, elem_of_map_to_list in Hin. simpl in Hb.
      apply andb_true_iff in Hb as [->%eqs_true Hb]. congruence.
  - by destruct (existsb _ _).
Qed.

Lemma abort_agents_fold heap req (a : gmap string RegisteredClient)
    (l : list (string * RegisteredClient)) :
  (forall k c, (k, c) ∈ l -> a !! k = Some c) ->
  (forall k c, a !! k = Some c -> pointers_valid heap (DispatchedCmds c)) ->
  forall m : gmap string RegisteredClient,
  exists m', foldl (AgentStore.abort_agent_step heap req) (Some m) l = Some m'
    /\ forall k, m' !! k
         = if bool_decide (k ∈ l.*1) then a !! k ≫= AbortExecution heap req
           else m !! k.
Proof.
  intros Hl Hvalid. induction l as [|[k0 c0] l IH]; intros m.
  - exists m. split; [done|]. intros k. rewrite bool_decide_eq_false_2; [done|].
    by intros ?%elem_of_nil.
  - assert (Hk0 : a !! k0 = Some c0) by (apply Hl; left).
    destruct (AbortExecution_run heap req c0) as (d & Hrun & _); [by eapply Hvalid|].
    cbn [foldl]. unfold AgentStore.abort_agent_step at 2. cbn [fst snd].
    rewrite Hrun.
    destruct (IH (fun k c Hin => Hl k c (list_elem_of_further _ _ _ Hin))
                 (<[k0 := set_DispatchedCmds d c0]> m)) as (m' & Hfold & Hlook).
    exists m'. split; [done|]. intros k. rewrite Hlook, fmap_cons. cbn [fst].
    destruct (decide (k ∈ l.*1)) as [Hin|Hnin].
    + rewrite !bool_decide_eq_true_2; [done | by right | done].
    + rewrite (bool_decide_eq_false_2 _ Hnin).
      destruct (decide (k = k0)) as [->|Hne].
      * rewrite bool_decide_eq_true_2 by left.
        rewrite lookup_insert_eq, Hk0. simpl. by rewrite Hrun.
      * rewrite bool_decide_eq_false_2.
        -- by rewrite lookup_insert_ne.
        -- by intros [?|?]%elem_of_cons.
Qed.

(** C8. With every dispatched pointer holding a command,
    [AbortConsensusExecution(req)] calls [AbortExecution(req)] on every
    registered agent and on no other; for each agent the call removes from
    [DispatchedCmds] exactly the entries whose command has the request's id,
    leaves every other entry as it was, and changes nothing else of the
    agent. *)
Theorem AbortConsensusExecution_removes_exactly heap req
    (a : gmap string RegisteredClient) :
  (forall id c, a !! id = Some c -> pointers_valid heap (DispatchedCmds c)) ->
  exists a', AgentStore.AbortConsensusExecution heap req a = Some a'
    /\ (forall id, a' !! id = a !! id ≫= AbortExecution heap req)
    /\ (forall id c, a !! id = Some c ->
        exists m', AbortExecution heap req c = Some (set_DispatchedCmds m' c)
          /\ forall k, m' !! k
               = match DispatchedCmds c !! k with
                 | Some p =>
                     if of_request heap (RequestId req) p then None else Some p
                 | None => None
                 end).
Proof.
  intros Hvalid. unfold AgentStore.AbortConsensusExecution.
  destruct (abort_agents_fold heap req a (map_to_list a)) with (m := a)
    as (a' & Hfold & Hlook).
  { intros k c Hin. by apply elem_of_map_to_list. }
  { done. }
  exists a'. split; [done|]. split.
  - intros id. rewrite Hlook. case_bool_decide as Hin; [done|].
    destruct (a !! id) as [c|] eqn:Hid; [|done].
    destruct Hin. apply list_elem_of_fmap. exists (id, c).
    split; [done | by apply elem_of_map_to_list].
  - intros id c Hid. apply AbortExecution_run. by eapply Hvalid.
Qed.

Example AbortExecution_sample :
  AbortExecution (Sample.objects true) (mkConsensusRequest "req1")
    (Sample.busy "agent1" {[ "c1" := 1%positive; "c2" := 2%positive ]})
  = Some (Sample.busy "agent1" {[ "c2" := 2%positive ]}).
Proof. vm_compute. reflexivity. Qed.

Ltac lookup_cases H :=
  repeat first
    [ apply lookup_insert_Some in H as [[_ <-] | [_ H]]
    | apply lookup_singleton_Some in H as [_ <-]
    | by rewrite lookup_empty in H ].

Lemma fleet_pointers_valid id c :
  Sample.fleet !! id = Some c ->
  pointers_valid (Sample.objects true) (DispatchedCmds c).
Proof.
  intros Hid k p Hk. unfold Sample.fleet in Hid.
  lookup_cases Hid; simpl in Hk; lookup_cases Hk; by eexists.
Qed.

Lemma AbortConsensusExecution_removes_exactly_sample :
  exists a',
    AgentStore.AbortConsensusExecution (Sample.objects true)
      (mkConsensusRequest "req1") Sample.fleet = Some a'
    /\ forall id, a' !! id
         = Sample.fleet !! id
           ≫= AbortExecution (Sample.objects true) (mkConsensusRequest "req1").
Proof.
  destruct (AbortConsensusExecution_removes_exactly (Sample.objects true)
              (mkConsensusRequest "req1") Sample.fleet fleet_pointers_valid)
    as (a' & Hrun & Hlook & _).
  exists a'. split; [exact Hrun | exact Hlook].
Defined.

Example AbortConsensusExecution_sample :
  AgentStore.AbortConsensusExecution (Sample.objects true)
    (mkConsensusRequest "req1") Sample.fleet
  = Some {[ "agent1" := Sample.busy "agent1" {[ "c2" := 2%positive ]};
            "agent2" := Sample.busy "agent2" ∅ ]}.
Proof. vm_compute. reflexivity. Qed.

(** ** Submission and the long poll *)

Lemma set_Pending_false_id obj :
  Pending obj = false -> set_Pending false obj = obj.
Proof. destruct obj; simpl. by intros ->. Qed.

Lemma drain_fold (l : list (string * positive)) :
  forall cmds0 (h0 : gmap positive Cmd),
  (forall kp, kp ∈ l -> is_Some (h0 !! kp.2)) ->
  exists cmds h, foldl drain_step (Some (cmds0, h0)) l = Some (cmds, h)
    /\ (forall q, h !! q = if bool_decide (q ∈ l.*2)
                           then set_Pending false <$> h0 !! q else h0 !! q)
    /\ (forall q, q ∈ cmds
          <-> q ∈ cmds0
              \/ (q ∈ l.*2 /\ exists obj, h0 !! q = Some obj /\ Pending obj = true)).
Proof.
  induction l as [|[k0 p0] l IH]; intros cmds0 h0 Hvalid.
  - exists cmds0, h0. split; [done|]. split.
    + intros q. rewrite bool_decide_eq_false_2; [done | by intros ?%elem_of_nil].
    + intros q. split; [by left|]. intros [?|[?%elem_of_nil _]]; done.
  - destruct (Hvalid (k0, p0)) as [obj Hobj]; [left|]. simpl in Hobj.
    cbn [foldl]. unfold drain_step at 2. cbn [fst snd]. rewrite Hobj.
    destruct (Pending obj) eqn:Hpend.
    + destruct (IH (cmds0 ++ [p0]) (<[p0 := set_Pending false obj]> h0))
        as (cmds & h & Hfold & Hheap & Hcmds).
      { intros kp Hin. apply lookup_insert_is_Some'. right.
        apply Hvalid. by right. }
      exists cmds, h. split; [done|]. split.
      * intros q. rewrite Hheap, fmap_cons. cbn [snd].
        destruct (decide (q = p0)) as [->|Hne].
        -- rewrite lookup_insert_eq, Hobj.
           rewrite (bool_decide_eq_true_2 (p0 ∈ p0 :: l.*2)) by left.
           by case_bool_decide.
        -- rewrite lookup_insert_ne by done.
           case_bool_decide as Hin.
           ++ rewrite bool_decide_eq_true_2; [done | by right].
           ++ rewrite bool_decide_eq_false_2; [done|].
              by intros [?|?]%elem_of_cons.
      * intros q. rewrite Hcmds, elem_of_app, list_elem_of_singleton, fmap_cons.
        cbn [snd]. destruct (decide (q = p0)) as [->|Hne].
        -- split; [|by left; right]. intros _. right. split; [left | eauto].
        -- rewrite lookup_insert_ne by done. rewrite elem_of_cons.
           intuition congruence.
    + destruct (IH cmds0 h0) as (cmds & h & Hfold & Hheap & Hcmds).
      { intros kp Hin. apply Hvalid. by right. }
      exists cmds, h. split; [done|]. split.
      * intros q. rewrite Hheap, fmap_cons. cbn [snd].
        destruct (decide (q = p0)) as [->|Hne].
        -- rewrite (bool_decide_eq_true_2 (p0 ∈ p0 :: l.*2)) by left.
           rewrite Hobj. simpl. rewrite set_Pending_false_id by done.
           by case_bool_decide.
        -- case_bool_decide as Hin.
           ++ rewrite bool_decide_eq_true_2; [done | by right].
           ++ rewrite bool_decide_eq_false_2; [done|].
              by intros [?|?]%elem_of_cons.
      * intros q. rewrite Hcmds, fmap_cons. cbn [snd]. rewrite elem_of_cons.
        split; [intros [?|[? ?]]; [by left | right; split; [by right | done]]|].
        intros [?|[[->|?] (obj' & Hobj' & Hp)]]; [by left | | by right; eauto].
        congruence.
Qed.

Lemma drain_run heap c :
  pointers_valid heap (Cmds c) ->
  exists cmds heap', drain heap c = Some (cmds, heap')
    /\ (forall k q, Cmds c !! k = Some q ->
          heap' !! q = set_Pending false <$> heap !! q)
    /\ (forall q, (forall k, Cmds c !! k <> Some q) -> heap' !! q = heap !! q)
    /\ (forall q, q ∈ cmds
          <-> exists k obj, Cmds c !! k = Some q
                /\ heap !! q = Some obj /\ Pending obj = true).
Proof.
  intros Hvalid. unfold drain.
  assert (Hin : forall q, q ∈ (map_to_list (Cmds c)).*2
                          <-> exists k, Cmds c !! k = Some q).
  { intros q. rewrite list_elem_of_fmap. split.
    - intros ([k p] & -> & Hkp). exists k. by apply elem_of_map_to_list.
    - intros [k Hk]. exists (k, q). split; [done | by apply elem_of_map_to_list]. }
  destruct (drain_fold (map_to_list (Cmds c)) [] heap)
    as (cmds & heap' & Hfold & Hheap & Hcmds).
  { intros [k p] Hkp%elem_of_map_to_list. by eapply Hvalid. }
  exists cmds, heap'. split; [done|]. split; [|split].
  - intros k q Hk. rewrite Hheap, bool_decide_eq_true_2; [done|].
    apply Hin. by exists k.
  - intros q Hno. rewrite Hheap, bool_decide_eq_false_2; [done|].
    intros [k Hk]%Hin. by eapply Hno.
  - intros q. rewrite Hcmds, Hin. split.
    + intros [?%elem_of_nil | [[k Hk] (obj & Hobj & Hp)]]; [done|]. eauto.
    + intros (k & obj & Hk & Hobj & Hp). right. eauto.
Qed.

(** C7. [Submit] puts the pointer under the command's id into both
    [Cmds] and [DispatchedCmds]. The long poll that follows returns the
    command and clears its [Pending] flag in the shared object; the entry
    stays in [Cmds] and in [DispatchedCmds], and a later drain does not
    return the command again. *)
Theorem Submit_then_poll_clears_flag (s : ServerState) id rc p obj :
  agents s !! id = Some rc ->
  AuthToken rc <> "" ->
  heap s !! p = Some obj ->
  Pending obj = true ->
  pointers_valid (heap s) (Cmds rc) ->
  exists rc1 cmds s2 rc2,
    Submit (heap s) p rc = Some rc1
    /\ Cmds rc1 !! Id obj = Some p
    /\ DispatchedCmds rc1 !! Id obj = Some p
    /\ ClientCmds true id (mkServerState (<[id := rc1]> (agents s)) (heap s))
       = Some (RespCmds cmds, s2)
    /\ p ∈ cmds
    /\ agents s2 !! id = Some rc2
    /\ Cmds rc2 !! Id obj = Some p
    /\ DispatchedCmds rc2 !! Id obj = Some p
    /\ heap s2 !! p = Some (set_Pending false obj)
    /\ exists cmds' heap', drain (heap s2) rc2 = Some (cmds', heap') /\ p ∉ cmds'.
Proof.
  intros Hid Htok Hobj Hpend Hvalid.
  set (rc1 := mkRegisteredClient (RegClientId rc) (AuthToken rc) (LastPing rc)
                (Tags rc) (<[Id obj := p]> (DispatchedCmds rc))
                (<[Id obj := p]> (Cmds rc)) (S (CmdChan rc))).
  assert (Hvalid1 : pointers_valid (heap s) (Cmds rc1)).
  { intros k q Hk. unfold rc1 in Hk. cbn [Cmds] in Hk.
    apply lookup_insert_Some in Hk as [[_ <-] | [_ Hk]]; [done | by eapply Hvalid]. }
  destruct (drain_run (heap s) rc1 Hvalid1)
    as (cmds & heap1 & Hdrain & Hin1 & _ & Hcmds).
  set (rc2 := mkRegisteredClient (RegClientId rc1) (AuthToken rc1) (LastPing rc1)
                (Tags rc1) (DispatchedCmds rc1) (Cmds rc1) (CmdChan rc)).
  assert (Hvalid2 : pointers_valid heap1 (Cmds rc2)).
  { intros k q Hk. rewrite (Hin1 k q Hk).
    destruct (Hvalid1 k q Hk) as [o ->]. by eexists. }
  destruct (drain_run heap1 rc2 Hvalid2) as (cmds' & heap2 & Hdrain2 & _ & _ & Hcmds').
  assert (Hp1 : Cmds rc1 !! Id obj = Some p) by apply lookup_insert_eq.
  assert (Hheap1 : heap1 !! p = Some (set_Pending false obj)).
  { rewrite (Hin1 _ _ Hp1), Hobj. done. }
  exists rc1, cmds, (mkServerState (<[id := rc2]> (<[id := rc1]> (agents s))) heap1), rc2.
  split; [unfold Submit; by rewrite Hobj|].
  split; [done|].
  split; [apply lookup_insert_eq|].
  split.
  { unfold ClientCmds. cbn [negb agents heap]. rewrite lookup_insert_eq.
    destruct (len (AuthToken rc1) <? 1) eqn:Hlen; [by apply len_lt_1 in Hlen|].
    cbn [CmdChan rc1]. by rewrite Hdrain. }
  split; [apply Hcmds; eauto|].
  split; [apply lookup_insert_eq|].
  split; [done|].
  split; [apply lookup_insert_eq|].
  split; [done|].
  exists cmds', heap2. split; [done|].
  intros (k & o & _ & Ho & Hp)%Hcmds'. cbn [heap] in Ho.
  rewrite Hheap1 in Ho. injection Ho as <-. discriminate.
Qed.

Lemma Submit_then_poll_clears_flag_sample :
  exists rc1 cmds s2 rc2,
    Submit (Sample.objects true) 1 (Sample.agent "agent1" 0 []) = Some rc1
    /\ ClientCmds true "agent1"
         (mkServerState (<["agent1" := rc1]> {[ "agent1" := Sample.agent "agent1" 0 [] ]})
                        (Sample.objects true))
       = Some (RespCmds cmds, s2)
    /\ 1%positive ∈ cmds
    /\ agents s2 !! "agent1" = Some rc2
    /\ Cmds rc2 !! "c1" = Some 1%positive
    /\ DispatchedCmds rc2 !! "c1" = Some 1%positive
    /\ heap s2 !! 1%positive = Some (Sample.dispatched "c1" "req1" false).
Proof.
  destruct (Submit_then_poll_clears_flag
              (mkServerState {[ "agent1" := Sample.agent "agent1" 0 [] ]}
                             (Sample.objects true))
              "agent1" (Sample.agent "agent1" 0 []) 1%positive
              (Sample.dispatched "c1" "req1" true))
    as (rc1 & cmds & s2 & rc2 & H1 & _ & _ & H2 & H3 & H4 & H5 & H6 & H7 & _).
  - reflexivity.
  - discriminate.
  - reflexivity.
  - reflexivity.
  - intros k q Hk. simpl in Hk. by rewrite lookup_empty in Hk.
  - exists rc1, cmds, s2, rc2. repeat split; assumption.
Defined.

(** Against the reading that a drained command leaves the pending map:
    after [Submit] and the long poll that returns the command, [Cmds]
    still has it under its id. *)
Lemma drained_command_stays_in_Cmds :
  exists s2 rc2,
    Submit (Sample.objects true) 1 (Sample.agent "agent1" 0 [])
    = Some Sample.submitted
    /\ ClientCmds true "agent1"
         (mkServerState {[ "agent1" := Sample.submitted ]} (Sample.objects true))
       = Some (RespCmds [1%positive], s2)
    /\ agents s2 !! "agent1" = Some rc2
    /\ ~ removed_from_pending "c1" rc2.
Proof.
  eexists _, _. split; [vm_compute; reflexivity|].
  split; [vm_compute; reflexivity|].
  split; [vm_compute; reflexivity|].
  unfold removed_from_pending. vm_compute. discriminate.
Qed.

(** ** Liveness and the sweep *)

(** [IsAlive] answers [true] exactly for the agents the design calls not
    alive. *)
Lemma IsAlive_inverted K now c :
  AgentStore.IsAlive K now c = true <-> ~ Design.alive K now c.
Proof.
  unfold AgentStore.IsAlive, Design.alive. rewrite Z.ltb_lt. lia.
Qed.

Lemma cleanup_fold K now (l : list (string * RegisteredClient)) :
  (forall kc, kc ∈ l -> RegClientId kc.2 = kc.1) ->
  forall (m : gmap string RegisteredClient) k,
  foldl (AgentStore.cleanup_step K now) m l !! k
  = if existsb (fun kc => eqs kc.1 k && negb (AgentStore.IsAlive K now kc.2)) l
    then None else m !! k.
Proof.
  induction l as [|[k0 c0] l IH]; intros Hid m k; [done|].
  assert (Hstep : AgentStore.cleanup_step K now m (k0, c0)
                  = if negb (AgentStore.IsAlive K now c0) then delete k0 m else m).
  { assert (Hk : RegClientId c0 = k0) by (apply (Hid (k0, c0)); left).
    unfold AgentStore.cleanup_step, AgentIdOf. cbn [fst snd]. rewrite Hk.
    destruct (m !! k0) eqn:Hk0; [done|].
    destruct (negb _); [by rewrite delete_id | done]. }
  cbn [foldl existsb fst snd]. rewrite Hstep.
  rewrite IH by (intros kc Hin; apply Hid; by right).
  destruct (existsb _ l); [by rewrite orb_true_r|]. rewrite orb_false_r.
  destruct (negb (AgentStore.IsAlive K now c0)).
  - rewrite andb_true_r. destruct (eqs k0 k) eqn:Hk.
    + apply eqs_true in Hk as ->. apply lookup_delete_eq.
    + apply eqs_false in Hk. by apply lookup_delete_ne.
  - by rewrite andb_false_r.
Qed.

(** With every agent stored under its own id, [Cleanup] keeps exactly the
    agents for which [IsAlive] answers [true]. *)
Lemma Cleanup_keeps_IsAlive K now (a : gmap string RegisteredClient) :
  (forall k c, a !! k = Some c -> RegClientId c = k) ->
  forall k, AgentStore.Cleanup K now a !! k
    = match a !! k with
      | Some c => if AgentStore.IsAlive K now c then Some c else None
      | None => None
      end.
Proof.
  intros Hid k. unfold AgentStore.Cleanup. rewrite cleanup_fold.
  - destruct (a !! k) as [c|] eqn:Hk.
    + destruct (AgentStore.IsAlive K now c) eqn:Halive.
      * destruct (existsb _ _) eqn:Hex; [|done]. exfalso.
        apply existsb_exists in Hex as ([k' c'] & Hin & Hb).
        apply list_elem_of_In, elem_of_map_to_list in Hin. simpl in Hb.
        apply andb_true_iff in Hb as [->%eqs_true Hb].
        rewrite Hk in Hin. injection Hin as <-. by rewrite Halive in Hb.
      * assert (Hex : existsb (fun kc => eqs kc.1 k
                                 && negb (AgentStore.IsAlive K now kc.2))
                        (map_to_list a) = true); [|by rewrite Hex].
        apply existsb_exists. exists (k, c). split.
        -- by apply list_elem_of_In, elem_of_map_to_list.
        -- simpl. rewrite Halive, andb_true_r. by apply eqs_true.
    + by destruct (existsb _ _).
  - intros [k' c'] Hin%elem_of_map_to_list. by apply Hid.
Qed.

(** C2. With a ping interval of 60 seconds, at the instant 1000 s:
    [IsAlive] is [false] for the agent pinged at that very instant and
    [true] for the agent last pinged 1000 seconds before, and [Cleanup]
    removes the first and keeps the second. *)
Theorem Cleanup_removes_fresh_agent :
  AgentStore.IsAlive 60 (1000 * Sample.second)
    (Sample.agent "fresh" (1000 * Sample.second) []) = false
  /\ AgentStore.IsAlive 60 (1000 * Sample.second) (Sample.agent "stale" 0 []) = true
  /\ AgentStore.Cleanup 60 (1000 * Sample.second) Sample.pinged
     = {[ "stale" := Sample.agent "stale" 0 [] ]}.
Proof.
  split; [reflexivity|]. split; [reflexivity|]. vm_compute. reflexivity.
Qed.

(** ** The store's other operations *)

Lemma Get_Add agent (a : gmap string RegisteredClient) :
  AgentStore.Get (AgentIdOf agent) (AgentStore.Add agent a) = Some agent.
Proof. apply lookup_insert_eq. Qed.

Lemma Get_Remove agent (a : gmap string RegisteredClient) :
  AgentStore.Get (AgentIdOf agent) (AgentStore.Remove agent a) = None.
Proof. apply lookup_delete_eq. Qed.

Example List_tag_filter :
  let a := {[ "a" := Sample.agent "a" 0 ["x"; "y"];
              "b" := Sample.agent "b" 0 ["x"];
              "c" := Sample.agent "c" 0 ["y"; "z"] ]} in
  forall agent, agent ∈ AgentStore.List ["x"] ["z"] a
    <-> agent = Sample.agent "a" 0 ["x"; "y"] \/ agent = Sample.agent "b" 0 ["x"].
Proof.
  intros a agent.
  assert (Hl : AgentStore.List ["x"] ["z"] a
               ≡ₚ [Sample.agent "a" 0 ["x"; "y"]; Sample.agent "b" 0 ["x"]]).
  { vm_compute. first [reflexivity | apply perm_swap]. }
  rewrite Hl, elem_of_cons, list_elem_of_singleton. done.
Qed.

(** * Further properties *)

(** ** The agent store *)

(** X1. With every agent stored under its own id, [Cleanup] at the instant
    [now] keeps exactly the agents whose last ping lies more than five ping
    intervals back, each unchanged, and drops all others. *)
Theorem Cleanup_keeps_long_silent K now (a : gmap string RegisteredClient) :
  (forall k c, a !! k = Some c -> RegClientId c = k) ->
  forall k c,
    AgentStore.Cleanup K now a !! k = Some c
    <-> a !! k = Some c /\ K * 5 * 1000000000 < now - LastPing c.
Proof.
  intros Hid k c. rewrite Cleanup_keeps_IsAlive by done.
  destruct (a !! k) as [c0|]; [|by split; [|intros [? _]]].
  unfold AgentStore.IsAlive.
  destruct (K * 5 * 1000000000 <? now - LastPing c0) eqn:Hlt.
  - apply Z.ltb_lt in Hlt. split.
    + by intros [= <-].
    + by intros [[= <-] _].
  - apply Z.ltb_ge in Hlt. split; [done|]. intros [[= <-] ?]. lia.
Qed.

Lemma pinged_under_own_id k c :
  Sample.pinged !! k = Some c -> RegClientId c = k.
Proof.
  intros Hk. unfold Sample.pinged in Hk.
  apply lookup_insert_Some in Hk as [[<- <-] | [_ Hk]]; [done|].
  by apply lookup_singleton_Some in Hk as [<- <-].
Qed.

Lemma Cleanup_keeps_long_silent_sample :
  AgentStore.Cleanup 60 (1000 * Sample.second) Sample.pinged !! "stale"
  = Some (Sample.agent "stale" 0 []).
Proof.
  apply (Cleanup_keeps_long_silent 60 (1000 * Sample.second) Sample.pinged
           pinged_under_own_id).
  split; [reflexivity | unfold Sample.second; simpl; lia].
Defined.

(** X2. [Add] makes the agent the answer of [Get] for its id and changes no
    other id; [Remove] makes [Get] fail for it; removing an id that is not
    registered changes nothing, and [Add] followed by [Remove] gives back a
    store that did not have the id. *)
Theorem store_add_get_remove agent id (a : gmap string RegisteredClient) :
  AgentStore.Get (AgentIdOf agent) (AgentStore.Add agent a) = Some agent
  /\ (id <> AgentIdOf agent ->
      AgentStore.Get id (AgentStore.Add agent a) = AgentStore.Get id a)
  /\ AgentStore.Get (AgentIdOf agent)
       (AgentStore.Remove agent (AgentStore.Add agent a)) = None
  /\ (AgentStore.Get id a = None -> AgentStore.RemoveById id a = a)
  /\ (AgentStore.Get (AgentIdOf agent) a = None ->
      AgentStore.Remove agent (AgentStore.Add agent a) = a).
Proof.
  unfold AgentStore.Get, AgentStore.Add, AgentStore.Remove, AgentStore.RemoveById.
  split; [apply lookup_insert_eq|].
  split; [intros Hne; by apply lookup_insert_ne|].
  split; [apply lookup_delete_eq|].
  split; [apply delete_id|].
  intros Hno. rewrite delete_insert_eq. by apply delete_id.
Qed.

(** X3. [List] never returns more agents than are registered, and with
    both tag lists empty it returns every registered agent, one per id. *)
Theorem List_without_filters include exclude (a : gmap string RegisteredClient) :
  AgentStore.List [] [] a = (map_to_list a).*2
  /\ length (AgentStore.List [] [] a) = size a
  /\ (length (AgentStore.List include exclude a) <= size a)%nat.
Proof.
  assert (Hall : AgentStore.List [] [] a = (map_to_list a).*2).
  { unfold AgentStore.List. rewrite list_fold_filter, app_nil_l.
    induction ((map_to_list a).*2) as [|c l IH]; [done|].
    rewrite filter_cons. by rewrite decide_True, IH. }
  split; [done|]. split.
  - by rewrite Hall, length_fmap, length_map_to_list.
  - unfold AgentStore.List. rewrite list_fold_filter, app_nil_l.
    rewrite <- (length_map_to_list a), <- (length_fmap snd (map_to_list a)).
    apply length_filter.
Qed.

(** X4. [HasTag(s)] holds exactly when [s] is one of the agent's tags; an
    agent without tags has none. *)
Theorem HasTag_iff_tag c s :
  (HasTag c s = true <-> s ∈ Tags c)
  /\ (Tags c = [] -> HasTag c s = false).
Proof.
  split; [apply HasTag_spec|]. intros Hnil. unfold HasTag. by rewrite Hnil.
Qed.

(** ** Abort and what follows it *)

(** X5. With every dispatched pointer holding a command, [AbortExecution]
    leaves no command of the request in [DispatchedCmds], and a second
    abort of the same request changes nothing more. *)
Theorem AbortExecution_idempotent heap req c :
  pointers_valid heap (DispatchedCmds c) ->
  exists c', AbortExecution heap req c = Some c'
    /\ AbortExecution heap req c' = Some c'
    /\ forall k p obj, DispatchedCmds c' !! k = Some p ->
         heap !! p = Some obj -> ConsensusRequestId obj <> RequestId req.
Proof.
  intros Hvalid.
  destruct (AbortExecution_run heap req c Hvalid) as (m' & Hrun & Hlook).
  assert (Hsub : forall k p, m' !! k = Some p ->
            DispatchedCmds c !! k = Some p
            /\ of_request heap (RequestId req) p = false).
  { intros k p Hk. rewrite Hlook in Hk.
    destruct (DispatchedCmds c !! k) as [q|]; [|done].
    destruct (of_request heap (RequestId req) q) eqn:Hreq; [done|].
    by injection Hk as <-. }
  exists (set_DispatchedCmds m' c). split; [done|]. split.
  - destruct (AbortExecution_run heap req (set_DispatchedCmds m' c))
      as (m'' & Hrun2 & Hlook2).
    { intros k p Hk. eapply Hvalid. by apply Hsub. }
    rewrite Hrun2. f_equal.
    assert (Heq : m'' = m'); [|by rewrite Heq].
    apply map_eq. intros k. rewrite Hlook2. cbn [DispatchedCmds set_DispatchedCmds].
    destruct (m' !! k) as [p|] eqn:Hk; [|done].
    destruct (Hsub k p Hk) as [_ Hreq]. by rewrite Hreq.
  - intros k p obj Hk Hobj Heq. cbn [DispatchedCmds set_DispatchedCmds] in Hk.
    destruct (Hsub k p Hk) as [_ Hreq]. unfold of_request in Hreq.
    rewrite Hobj in Hreq. apply eqs_false in Hreq. done.
Qed.

Lemma busy_pointers_valid :
  pointers_valid (Sample.objects true)
    (DispatchedCmds (Sample.busy "agent1" {[ "c1" := 1%positive; "c2" := 2%positive ]})).
Proof.
  intros k p Hk. simpl in Hk. lookup_cases Hk; by eexists.
Qed.

Lemma AbortExecution_idempotent_sample :
  exists c',
    AbortExecution (Sample.objects true) (mkConsensusRequest "req1")
      (Sample.busy "agent1" {[ "c1" := 1%positive; "c2" := 2%positive ]}) = Some c'
    /\ AbortExecution (Sample.objects true) (mkConsensusRequest "req1") c' = Some c'.
Proof.
  destruct (AbortExecution_idempotent (Sample.objects true)
              (mkConsensusRequest "req1")
              (Sample.busy "agent1" {[ "c1" := 1%positive; "c2" := 2%positive ]})
              busy_pointers_valid) as (c' & H1 & H2 & _).
  exists c'. split; [exact H1 | exact H2].
Defined.

(** X6. An abort does not recall a command that is still waiting for the
    long poll: it touches neither [Cmds] nor the channel, so the poll of
    the aborted agent answers with the same commands and leaves the same
    heap as the poll of the agent before the abort. *)
Theorem abort_does_not_recall_pending (s : ServerState) id c c' req r s1 :
  agents s !! id = Some c ->
  AbortExecution (heap s) req c = Some c' ->
  ClientCmds true id s = Some (r, s1) ->
  Cmds c' = Cmds c
  /\ exists s1',
       ClientCmds true id (mkServerState (<[id := c']> (agents s)) (heap s))
       = Some (r, s1')
       /\ heap s1' = heap s1.
Proof.
  intros Hid Habort Hpoll. unfold AbortExecution in Habort.
  destruct (foldl _ _ _) as [m|]; [|done]. injection Habort as <-.
  split; [done|].
  unfold ClientCmds in *. cbn [negb agents heap] in *.
  rewrite lookup_insert_eq. rewrite Hid in Hpoll.
  cbn [AuthToken set_DispatchedCmds CmdChan].
  destruct (len (AuthToken c) <? 1).
  { injection Hpoll as <- <-. by eexists. }
  destruct (CmdChan c) as [|waiting].
  { injection Hpoll as <- <-. by eexists. }
  change (drain (heap s) (set_DispatchedCmds m c)) with (drain (heap s) c).
  destruct (drain (heap s) c) as [[cmds heap']|]; [|done].
  injection Hpoll as <- <-. by eexists.
Qed.

Lemma abort_does_not_recall_pending_sample :
  exists s1',
    ClientCmds true "agent1"
      (mkServerState
         (<["agent1" := set_DispatchedCmds ∅ Sample.submitted]>
            {[ "agent1" := Sample.submitted ]})
         (Sample.objects true))
    = Some (RespCmds [1%positive], s1').
Proof.
  destruct (abort_does_not_recall_pending
              (mkServerState {[ "agent1" := Sample.submitted ]} (Sample.objects true))
              "agent1" Sample.submitted (set_DispatchedCmds ∅ Sample.submitted)
              (mkConsensusRequest "req1") (RespCmds [1%positive])
              (mkServerState
                 {[ "agent1" := mkRegisteredClient "agent1" "tok" 0 []
                                  {[ "c1" := 1%positive ]} {[ "c1" := 1%positive ]} 0 ]}
                 (<[1%positive := Sample.dispatched "c1" "req1" false]>
                    (Sample.objects true))))
    as (_ & s1' & Hpoll & _).
  - reflexivity.
  - vm_compute. reflexivity.
  - vm_compute. reflexivity.
  - exists s1'. exact Hpoll.
Defined.

(** X7. Once a request is aborted, the coordinator no longer knows its
    commands on that agent: state reports and log uploads for them are
    answered "Command not found" and change nothing. *)
Theorem aborted_command_reports_not_found n g (s : ServerState)
    id c c' req cmdId p obj new body :
  agents s !! id = Some c ->
  pointers_valid (heap s) (DispatchedCmds c) ->
  AbortExecution (heap s) req c = Some c' ->
  DispatchedCmds c !! cmdId = Some p ->
  heap s !! p = Some obj ->
  ConsensusRequestId obj = RequestId req ->
  let s' := mkServerState (<[id := c']> (agents s)) (heap s) in
  PutClientCmdState n g true id cmdId new s'
  = Some (ReplyError "Command not found", s', [])
  /\ PutClientCmdLogs true id cmdId body s'
     = Some (ReplyError "Command not found", s').
Proof.
  intros Hid Hvalid Habort Hk Hobj Hreq s'.
  destruct (AbortExecution_run (heap s) req c Hvalid) as (m' & Hrun & Hlook).
  rewrite Hrun in Habort. injection Habort as <-.
  assert (Hgone : dispatched_cmd s' (set_DispatchedCmds m' c) cmdId = None).
  { unfold dispatched_cmd. cbn [DispatchedCmds set_DispatchedCmds].
    rewrite Hlook, Hk. unfold of_request. rewrite Hobj.
    by rewrite (proj2 (eqs_true _ _) Hreq). }
  unfold PutClientCmdState, PutClientCmdLogs. cbn [negb].
  subst s'. cbn [agents]. rewrite lookup_insert_eq.
  cbn [agents] in Hgone. by rewrite Hgone.
Qed.

Lemma aborted_command_reports_not_found_sample :
  let s' := mkServerState
              (<["agent1" := Sample.busy "agent1" {[ "c2" := 2%positive ]}]>
                 Sample.fleet)
              (Sample.objects true) in
  PutClientCmdState 2 Sample.coordinator true "agent1" "c1" "finished_execution" s'
  = Some (ReplyError "Command not found", s', []).
Proof.
  apply (aborted_command_reports_not_found 2 Sample.coordinator
           (mkServerState Sample.fleet (Sample.objects true))
           "agent1"
           (Sample.busy "agent1" {[ "c1" := 1%positive; "c2" := 2%positive ]})
           (Sample.busy "agent1" {[ "c2" := 2%positive ]})
           (mkConsensusRequest "req1") "c1" 1%positive
           (Sample.dispatched "c1" "req1" true) "finished_execution" BodyNull).
  - reflexivity.
  - exact busy_pointers_valid.
  - vm_compute. reflexivity.
  - reflexivity.
  - reflexivity.
  - reflexivity.
Defined.

(** ** Ageing of dispatched commands *)

Lemma purge_fold heap maxAge (M : gmap string positive)
    (l : list (string * positive)) :
  (forall k p, (k, p) ∈ l -> M !! k = Some p) ->
  pointers_valid heap M ->
  forall (m0 : gmap string positive) (d0 : bool),
  exists m' d', foldl (purge_step heap maxAge) (Some (m0, d0)) l = Some (m', d')
    /\ (forall k, m' !! k
          = match (if bool_decide (k ∈ l.*1) then M !! k else None) with
            | Some p =>
                match heap !! p with
                | Some d => if maxAge <=? Created d then Some p else m0 !! k
                | None => m0 !! k
                end
            | None => m0 !! k
            end)
    /\ (d' = false ->
        d0 = false
        /\ forall k p d, (k, p) ∈ l -> heap !! p = Some d -> maxAge <= Created d).
Proof.
  intros Hl Hvalid. induction l as [|[k0 p0] l IH]; intros m0 d0.
  - exists m0, d0. split; [done|]. split.
    + intros k. rewrite bool_decide_eq_false_2; [done | by intros ?%elem_of_nil].
    + intros ->. split; [done|]. by intros k p d ?%elem_of_nil.
  - assert (Hk0 : M !! k0 = Some p0) by (apply Hl; left).
    destruct (Hvalid k0 p0 Hk0) as [d Hd].
    cbn [foldl]. unfold purge_step at 2. cbn [fst snd]. rewrite Hd.
    destruct (maxAge <=? Created d) eqn:Hage.
    + destruct (IH (fun k p Hin => Hl k p (list_elem_of_further _ _ _ Hin))
                   (<[k0 := p0]> m0) d0) as (m' & d' & Hfold & Hlook & Hdirty).
      exists m', d'. split; [done|]. split.
      * intros k. rewrite Hlook, fmap_cons. cbn [fst].
        destruct (decide (k ∈ l.*1)) as [Hin|Hnin].
        -- rewrite !bool_decide_eq_true_2; [|by right|done].
           destruct (M !! k) as [p|] eqn:Hk.
           ++ destruct (heap !! p) as [dp|] eqn:Hp.
              ** destruct (maxAge <=? Created dp) eqn:Hage2; [done|].
                 destruct (decide (k = k0)) as [->|Hne].
                 --- rewrite Hk0 in Hk. injection Hk as <-.
                     rewrite Hd in Hp. injection Hp as <-. congruence.
                 --- by rewrite lookup_insert_ne.
              ** destruct (Hvalid k p Hk) as [? Hsome]. congruence.
           ++ apply list_elem_of_fmap in Hin as ([k' p'] & -> & Hin).
              apply list_elem_of_further with (y := (k0, p0)) in Hin.
              apply Hl in Hin. simpl in Hk. congruence.
        -- rewrite (bool_decide_eq_false_2 _ Hnin).
           destruct (decide (k = k0)) as [->|Hne].
           ++ rewrite bool_decide_eq_true_2 by left.
              by rewrite Hk0, Hd, Hage, lookup_insert_eq.
           ++ rewrite bool_decide_eq_false_2 by (by intros [?|?]%elem_of_cons).
              by rewrite lookup_insert_ne.
      * intros Hd'. destruct (Hdirty Hd') as [-> Hyoung]. split; [done|].
        intros k p dp [[= -> ->]|Hin]%elem_of_cons Hp.
        -- rewrite Hd in Hp. injection Hp as <-. by apply Z.leb_le.
        -- by eapply Hyoung.
    + destruct (IH (fun k p Hin => Hl k p (list_elem_of_further _ _ _ Hin))
                   m0 true) as (m' & d' & Hfold & Hlook & Hdirty).
      exists m', d'. split; [done|]. split.
      * intros k. rewrite Hlook, fmap_cons. cbn [fst].
        destruct (decide (k ∈ l.*1)) as [Hin|Hnin].
        -- by rewrite !bool_decide_eq_true_2; [|by right|done].
        -- rewrite (bool_decide_eq_false_2 _ Hnin).
           destruct (decide (k = k0)) as [->|Hne].
           ++ rewrite bool_decide_eq_true_2 by left.
              by rewrite Hk0, Hd, Hage.
           ++ by rewrite bool_decide_eq_false_2 by (by intros [?|?]%elem_of_cons).
      * intros Hd'. by destruct (Hdirty Hd') as [? _].
Qed.

(** X8. With every dispatched pointer holding a command,
    [GetDispatchedCmds] at the time [now] returns exactly the entries
    whose command was created no more than 14 days (1209600 seconds)
    before, a command created exactly 14 days before included; afterwards
    the agent's [DispatchedCmds] is the map returned, and nothing else of
    the agent has changed. *)
Theorem GetDispatchedCmds_purges_old now heap c :
  pointers_valid heap (DispatchedCmds c) ->
  exists newMap,
    GetDispatchedCmds now heap c = Some (newMap, set_DispatchedCmds newMap c)
    /\ forall k p, newMap !! k = Some p
         <-> DispatchedCmds c !! k = Some p
             /\ exists d, heap !! p = Some d /\ now - 1209600 <= Created d.
Proof.
  intros Hvalid. unfold GetDispatchedCmds. cbv zeta.
  destruct (purge_fold heap (now - 14 * 86400) (DispatchedCmds c)
              (map_to_list (DispatchedCmds c))) with (m0 := ∅ : gmap string positive)
              (d0 := false)
    as (m' & d' & -> & Hlook & Hdirty).
  { intros k p Hin. by apply elem_of_map_to_list. }
  { done. }
  assert (Hspec : forall k p, m' !! k = Some p
            <-> DispatchedCmds c !! k = Some p
                /\ exists d, heap !! p = Some d /\ now - 1209600 <= Created d).
  { intros k p. rewrite Hlook.
    destruct (DispatchedCmds c !! k) as [q|] eqn:Hk.
    - rewrite bool_decide_eq_true_2.
      + destruct (Hvalid k q Hk) as [d Hd]. rewrite Hd, lookup_empty.
        destruct (now - 14 * 86400 <=? Created d) eqn:Hage.
        * apply Z.leb_le in Hage. split.
          -- intros [= <-]. split; [done|]. exists d. split; [done | lia].
          -- by intros [[= <-] _].
        * apply Z.leb_gt in Hage. split; [done|].
          intros [[= <-] (d2 & Hd2 & Hle)]. rewrite Hd in Hd2.
          injection Hd2 as <-. lia.
      + apply list_elem_of_fmap. exists (k, q).
        split; [done | by apply elem_of_map_to_list].
    - rewrite lookup_empty.
      destruct (bool_decide _); split; try done; by intros [? _]. }
  exists m'. split; [|done].
  destruct d'; [done|]. f_equal. f_equal.
  destruct (Hdirty eq_refl) as [_ Hyoung].
  assert (Heq : m' = DispatchedCmds c); [|rewrite Heq; by destruct c].
  apply map_eq. intros k. apply option_eq. intros p. rewrite Hspec.
  split; [by intros [? _]|]. intros Hk. split; [done|].
  destruct (Hvalid k p Hk) as [d Hd]. exists d. split; [done|].
  assert (now - 14 * 86400 <= Created d); [|lia].
  eapply Hyoung; [|done]. by apply elem_of_map_to_list.
Qed.

Lemma GetDispatchedCmds_purges_old_sample :
  exists newMap,
    GetDispatchedCmds 1209600 (Sample.objects true)
      (Sample.busy "agent1" {[ "c1" := 1%positive; "c2" := 2%positive ]})
    = Some (newMap, Sample.busy "agent1" newMap).
Proof.
  destruct (GetDispatchedCmds_purges_old 1209600 (Sample.objects true)
              (Sample.busy "agent1" {[ "c1" := 1%positive; "c2" := 2%positive ]})
              busy_pointers_valid) as (newMap & Hrun & _).
  exists newMap. exact Hrun.
Defined.

Example GetDispatchedCmds_one_second_later :
  GetDispatchedCmds 1209601 (Sample.objects true)
    (Sample.busy "agent1" {[ "c1" := 1%positive; "c2" := 2%positive ]})
  = Some (∅, Sample.busy "agent1" ∅).
Proof. vm_compute. reflexivity. Qed.

(** ** Registration *)





Lemma tags_fold_lookup (tags : list string) (m : gmap string bool) tag :
  foldl (fun m tag => <[tag := true]> m) m tags !! tag
  = if bool_decide (tag ∈ tags) then Some true else m !! tag.
Proof.
  revert m. induction tags as [|t tags IH]; intros m; cbn [foldl].
  - rewrite bool_decide_eq_false_2; [done | by intros ?%elem_of_nil].
  - rewrite IH. destruct (decide (tag ∈ tags)) as [Hin|Hnin].
    + by rewrite !bool_decide_eq_true_2; [|by right|done].
    + rewrite (bool_decide_eq_false_2 _ Hnin).
      destruct (decide (tag = t)) as [->|Hne].
      * rewrite bool_decide_eq_true_2 by left. apply lookup_insert_eq.
      * rewrite bool_decide_eq_false_2 by (by intros [?|?]%elem_of_cons).
        by apply lookup_insert_ne.
Qed.

Lemma RegisterClient_run now clientId tags
    (a : gmap string RegisteredClient) (serverTags : gmap string bool) :
  let r := RegisterClient now clientId tags a serverTags in
  (exists agent, r.1 !! clientId = Some agent
     /\ Tags agent = tags /\ LastPing agent = now
     /\ (forall old, a !! clientId = Some old ->
           AuthToken agent = AuthToken old
           /\ DispatchedCmds agent = DispatchedCmds old
           /\ Cmds agent = Cmds old)
     /\ (a !! clientId = None ->
           RegClientId agent = clientId /\ AuthToken agent = ""
           /\ DispatchedCmds agent = ∅ /\ Cmds agent = ∅))
  /\ (forall id, id <> clientId -> r.1 !! id = a !! id)
  /\ (forall tag, r.2 !! tag
        = if bool_decide (tag ∈ tags) then Some true else serverTags !! tag).
Proof.
  cbv zeta. unfold RegisterClient, AgentStore.Get, AgentStore.Add, AgentIdOf.
  destruct (a !! clientId) as [old|] eqn:Hold; cbn [fst snd].
  - split; [|split].
    + exists (Update now tags old). split; [apply lookup_insert_eq|].
      split; [done|]. split; [done|]. split; [|done].
      by intros old' [= <-].
    + intros id Hne. by rewrite lookup_insert_ne.
    + apply tags_fold_lookup.
  - split; [|split].
    + exists (Update now tags (newRegisteredClient clientId)).
      split; [apply lookup_insert_eq|].
      split; [done|]. split; [done|]. split; [done|]. by intros _.
    + intros id Hne. cbn [RegClientId newRegisteredClient].
      by rewrite !lookup_insert_ne.
    + apply tags_fold_lookup.
Qed.

(** X9. [RegisterClient(clientId, tags)] leaves under [clientId] an agent
    with exactly these tags and the current instant as last ping. An agent
    that was registered keeps its token and its two command maps; a new one
    starts with no token and empty maps. No other agent changes, and the
    server's tag set gains the tags and loses nothing. *)
Theorem RegisterClient_refreshes now clientId tags
    (a : gmap string RegisteredClient) (serverTags : gmap string bool) :
  let r := RegisterClient now clientId tags a serverTags in
  (exists agent, r.1 !! clientId = Some agent
     /\ Tags agent = tags /\ LastPing agent = now
     /\ (forall old, a !! clientId = Some old ->
           AuthToken agent = AuthToken old
           /\ DispatchedCmds agent = DispatchedCmds old
           /\ Cmds agent = Cmds old)
     /\ (a !! clientId = None ->
           RegClientId agent = clientId /\ AuthToken agent = ""
           /\ DispatchedCmds agent = ∅ /\ Cmds agent = ∅))
  /\ (forall id, id <> clientId -> r.1 !! id = a !! id)
  /\ (forall tag, r.2 !! tag
        = if bool_decide (tag ∈ tags) then Some true else serverTags !! tag).
Proof. apply RegisterClient_run. Qed.


Example ClientPing_without_tags :
  (ClientPing true "i1" 5 "agent1" "" ∅ ∅).2.1 !! "agent1"
  = Some (Update 5 [""] (newRegisteredClient "agent1")).
Proof. vm_compute. reflexivity. Qed.

(** ** Reports of the agent *)

Lemma SetState_frame n g new s :
  exists st t,
    SetState (S (S n)) g new s
    = Some (tt, mkSt (set_state st (cmd s)) (trace s ++ t))
    /\ (new <> "flushed_logs" -> st = new /\ t = [])
    /\ (st = new \/ st = "failed" \/ st = "failed_validation" \/ st = "finished")
    /\ (t = [] \/ exists ece, t = [GoNext ece]).
Proof.
  destruct (decide (new = "flushed_logs")) as [->|Hne].
  - destruct (decide (state (cmd s) = "finished_execution")) as [Hfin|Hfin].
    + rewrite SetState_flushed_finished by done. unfold _validate.
      destruct (ServerEnabled (conf g)) eqn:Hon.
      * destruct (templateStore g !! TemplateId (cmd s)) as [template|] eqn:Ht.
        -- erewrite validate_with_run by done. cbn [cmd trace].
           destruct (existsb _ _).
           ++ exists "failed_validation", []. rewrite app_nil_r.
              split; [done|]. split; [done|]. split; [tauto | by left].
           ++ exists "finished", (next_iteration g (cmd s)).
              split; [done|]. split; [done|]. split; [tauto|].
              unfold next_iteration. cbn [ConsensusRequestId set_state].
              destruct (executionCoordinator g !! _); [right; by eexists | by left].
        -- rewrite validate_with_no_template by done.
           exists "flushed_logs", []. rewrite app_nil_r.
           split; [done|]. split; [done|]. split; [tauto | by left].
      * rewrite validate_with_off by done.
        exists "flushed_logs", []. rewrite app_nil_r.
        split; [done|]. split; [done|]. split; [tauto | by left].
    + destruct (decide (state (cmd s) = "failed_execution")) as [Hfail|Hfail].
      * rewrite SetState_flushed_failed by done.
        exists "failed", []. rewrite app_nil_r.
        split; [done|]. split; [done|]. split; [tauto | by left].
      * rewrite SetState_flushed_other by done.
        exists "flushed_logs", []. rewrite app_nil_r.
        split; [done|]. split; [done|]. split; [tauto | by left].
  - rewrite SetState_plain by done.
    exists new, []. rewrite app_nil_r.
    split; [done|]. split; [done|]. split; [tauto | by left].
Qed.

(** X11. A log upload for a dispatched command appends the uploaded lines
    to the command's two buffers, in order and behind what was there; an
    absent array adds nothing. Reading the logs afterwards returns the old
    lines followed by the new. The registry, the command's state and every
    other command stay as they were. *)
Theorem uploaded_logs_are_appended (s : ServerState) id rc cmdId p obj output error :
  agents s !! id = Some rc ->
  DispatchedCmds rc !! cmdId = Some p ->
  heap s !! p = Some obj ->
  exists s' obj',
    PutClientCmdLogs true id cmdId (BodyLogs output error) s = Some (ReplyOK, s')
    /\ GetClientCmdLogs true id cmdId s'
       = Some (LogsOK (BufOutput obj ++ default [] output)
                      (BufOutputErr obj ++ default [] error))
    /\ agents s' = agents s
    /\ heap s' !! p = Some obj'
    /\ state obj' = state obj
    /\ forall q, q <> p -> heap s' !! q = heap s !! q.
Proof.
  intros Hid Hk Hobj.
  unfold PutClientCmdLogs, GetClientCmdLogs, dispatched_cmd. cbn [negb].
  rewrite Hid, Hk, Hobj.
  eexists _, _. split; [reflexivity|]. cbn [agents heap].
  rewrite Hid, Hk, lookup_insert_eq.
  split; [|split; [done|split; [done|split]]].
  - destruct output, error; cbn; by rewrite ?app_nil_r.
  - by destruct output, error.
  - intros q Hne. by rewrite lookup_insert_ne.
Qed.

Lemma uploaded_logs_are_appended_sample :
  exists s',
    PutClientCmdLogs true "agent1" "c2" (BodyLogs (Some ["a"; "b"]) None)
      (mkServerState Sample.fleet (Sample.objects true))
    = Some (ReplyOK, s')
    /\ GetClientCmdLogs true "agent1" "c2" s' = Some (LogsOK ["a"; "b"] []).
Proof.
  destruct (uploaded_logs_are_appended
              (mkServerState Sample.fleet (Sample.objects true)) "agent1"
              (Sample.busy "agent1" {[ "c1" := 1%positive; "c2" := 2%positive ]})
              "c2" 2%positive (Sample.dispatched "c2" "req2" true)
              (Some ["a"; "b"]) None eq_refl eq_refl eq_refl)
    as (s' & obj' & Hput & Hget & _).
  exists s'. split; [exact Hput | exact Hget].
Defined.

(** X12. A handler that answers with an error has changed nothing: this
    holds for log uploads, state reports (which then also start nothing),
    the long poll and the token rotation; and each of them answers an
    unauthorized caller with an error. *)
Theorem error_replies_change_nothing :
  (forall auth id cmdId body s msg s',
     PutClientCmdLogs auth id cmdId body s = Some (ReplyError msg, s') -> s' = s)
  /\ (forall n g auth id cmdId new s msg s' events,
        PutClientCmdState n g auth id cmdId new s
        = Some (ReplyError msg, s', events) -> s' = s /\ events = [])
  /\ (forall auth id s msg s',
        ClientCmds auth id s = Some (RespError msg, s') -> s' = s)
  /\ (forall h confToken auth id generated s msg s',
        PostClientAuth h confToken auth id generated s
        = Some (AuthError msg, s') -> s' = s)
  /\ (forall n g h confToken id cmdId body new generated s,
        (exists msg, PutClientCmdLogs false id cmdId body s
                     = Some (ReplyError msg, s))
        /\ (exists msg, PutClientCmdState n g false id cmdId new s
                        = Some (ReplyError msg, s, []))
        /\ (exists msg, ClientCmds false id s = Some (RespError msg, s))
        /\ (exists msg, PostClientAuth h confToken false id generated s
                        = Some (AuthError msg, s))).
Proof.
  split; [|split; [|split; [|split]]].
  - intros auth id cmdId body s msg s'. unfold PutClientCmdLogs.
    destruct (negb auth); [by intros [= _ <-]|].
    destruct (agents s !! id); [|done].
    destruct (dispatched_cmd s _ cmdId) as [[p obj]|]; [|by intros [= _ <-]].
    destruct body; try done; by intros [= _ <-].
  - intros n g auth id cmdId new s msg s' events. unfold PutClientCmdState.
    destruct (negb auth); [by intros [= _ <- <-]|].
    destruct (agents s !! id); [|done].
    destruct (dispatched_cmd s _ cmdId) as [[p obj]|]; [|by intros [= _ <- <-]].
    by destruct (run _ obj) as [[? ?]|].
  - intros auth id s msg s'. unfold ClientCmds.
    destruct (negb auth); [by intros [= _ <-]|].
    destruct (agents s !! id) as [rc|]; [|done].
    destruct (len (AuthToken rc) <? 1); [by intros [= _ <-]|].
    destruct (CmdChan rc); [done|].
    by destruct (drain (heap s) rc) as [[? ?]|].
  - intros h confToken auth id generated s msg s'. unfold PostClientAuth.
    destruct (negb auth); [by intros [= _ <-]|].
    destruct (agents s !! id); [|done].
    destruct generated; [done | by intros [= _ <-]].
  - intros. repeat split; by eexists.
Qed.

(** X13. A state report for a dispatched command always succeeds, whatever
    the state the command is in and whatever the state reported. It changes
    nothing but the [state] field of that command, which becomes the
    reported state, or, for [flushed_logs], possibly [failed],
    [failed_validation] or [finished]; any state other than [flushed_logs]
    is stored as it comes and starts nothing. *)
Theorem state_report_changes_only_state n g (s : ServerState)
    id rc cmdId p obj new :
  agents s !! id = Some rc ->
  DispatchedCmds rc !! cmdId = Some p ->
  heap s !! p = Some obj ->
  exists st events,
    PutClientCmdState (S (S n)) g true id cmdId new s
    = Some (ReplyOK,
            mkServerState (agents s) (<[p := set_state st obj]> (heap s)),
            events)
    /\ (new <> "flushed_logs" -> st = new /\ events = [])
    /\ (st = new \/ st = "failed" \/ st = "failed_validation" \/ st = "finished").
Proof.
  intros Hid Hk Hobj. unfold PutClientCmdState, dispatched_cmd. cbn [negb].
  rewrite Hid, Hk, Hobj. unfold run.
  destruct (SetState_frame n g new (mkSt obj [])) as (st & t & -> & Hplain & Hst & _).
  exists st, t. split; [done|]. split; [|done]. exact Hplain.
Qed.

Lemma state_report_changes_only_state_sample :
  exists st events,
    PutClientCmdState 2 Sample.coordinator true "agent1" "c2" "pending"
      (mkServerState Sample.fleet (Sample.objects true))
    = Some (ReplyOK,
            mkServerState Sample.fleet
              (<[2%positive := set_state st (Sample.dispatched "c2" "req2" true)]>
                 (Sample.objects true)),
            events)
    /\ st = "pending".
Proof.
  destruct (state_report_changes_only_state 0 Sample.coordinator
              (mkServerState Sample.fleet (Sample.objects true)) "agent1"
              (Sample.busy "agent1" {[ "c1" := 1%positive; "c2" := 2%positive ]})
              "c2" 2%positive (Sample.dispatched "c2" "req2" true) "pending"
              eq_refl eq_refl eq_refl)
    as (st & events & Hrun & Hplain & _).
  exists st, events. split; [exact Hrun|]. by apply Hplain.
Defined.

(** ** The long poll *)

Lemma drain_fold_None l : foldl drain_step None l = None.
Proof. by induction l. Qed.

Lemma drain_fold_valid (l : list (string * positive)) :
  forall cmds0 (h0 : gmap positive Cmd) cmds h,
  foldl drain_step (Some (cmds0, h0)) l = Some (cmds, h) ->
  forall kp, kp ∈ l -> is_Some (h0 !! kp.2).
Proof.
  induction l as [|[k0 p0] l IH]; intros cmds0 h0 cmds h Hfold kp Hin.
  { by apply elem_of_nil in Hin. }
  cbn [foldl] in Hfold. unfold drain_step at 2 in Hfold. cbn [fst snd] in Hfold.
  destruct (h0 !! p0) as [obj|] eqn:Hobj;
    [|by rewrite drain_fold_None in Hfold].
  apply elem_of_cons in Hin as [->|Hin]; [by eexists|].
  destruct (Pending obj).
  - specialize (IH _ _ _ _ Hfold kp Hin).
    apply lookup_insert_is_Some in IH as [<- | [_ ?]]; [by eexists | done].
  - by eapply IH.
Qed.

Lemma drain_fold_NoDup (l : list (string * positive)) :
  forall cmds0 (h0 : gmap positive Cmd) cmds h,
  foldl drain_step (Some (cmds0, h0)) l = Some (cmds, h) ->
  NoDup cmds0 ->
  (forall q obj, q ∈ cmds0 -> h0 !! q = Some obj -> Pending obj = false) ->
  NoDup cmds.
Proof.
  induction l as [|[k0 p0] l IH]; intros cmds0 h0 cmds h Hfold Hnd Hdone.
  { by injection Hfold as <- _. }
  cbn [foldl] in Hfold. unfold drain_step at 2 in Hfold. cbn [fst snd] in Hfold.
  destruct (h0 !! p0) as [obj|] eqn:Hobj;
    [|by rewrite drain_fold_None in Hfold].
  destruct (Pending obj) eqn:Hpend.
  - eapply IH; [exact Hfold | |].
    + apply NoDup_app. split; [done|]. split; [|apply NoDup_singleton].
      intros q Hq ->%list_elem_of_singleton.
      specialize (Hdone _ _ Hq Hobj). congruence.
    + intros q o [Hq | ->%list_elem_of_singleton]%elem_of_app Ho.
      * destruct (decide (q = p0)) as [->|Hne].
        -- rewrite lookup_insert_eq in Ho. by injection Ho as <-.
        -- rewrite lookup_insert_ne in Ho by done. by eapply Hdone.
      * rewrite lookup_insert_eq in Ho. by injection Ho as <-.
  - by eapply IH.
Qed.

(** X14. The drain of a long poll hands out each command once: the list it
    returns has no repetition, even when two ids of the pending map point
    to the same command; it holds exactly the commands of the pending map
    whose [Pending] flag was set; and afterwards no command of the pending
    map has the flag set. *)
Theorem poll_hands_out_each_command_once heap c cmds heap' :
  drain heap c = Some (cmds, heap') ->
  NoDup cmds
  /\ (forall q, q ∈ cmds
        <-> exists k obj, Cmds c !! k = Some q
              /\ heap !! q = Some obj /\ Pending obj = true)
  /\ (forall k q obj, Cmds c !! k = Some q -> heap' !! q = Some obj ->
        Pending obj = false).
Proof.
  intros Hdrain.
  assert (Hvalid : pointers_valid heap (Cmds c)).
  { intros k p Hk.
    apply (drain_fold_valid _ _ _ _ _ Hdrain (k, p)).
    by apply elem_of_map_to_list. }
  destruct (drain_run heap c Hvalid) as (cmds1 & heap1 & Hrun & Hin & _ & Hcmds).
  rewrite Hdrain in Hrun. injection Hrun as <- <-.
  split; [|split; [done|]].
  - eapply drain_fold_NoDup; [exact Hdrain | apply NoDup_nil_2|].
    by intros q obj ?%elem_of_nil.
  - intros k q obj Hk Hobj. rewrite (Hin k q Hk) in Hobj.
    destruct (heap !! q); [|done]. by injection Hobj as <-.
Qed.

Lemma poll_hands_out_each_command_once_sample :
  NoDup [1%positive]
  /\ forall k q obj,
       Cmds Sample.submitted !! k = Some q ->
       <[1%positive := Sample.dispatched "c1" "req1" false]> (Sample.objects true) !! q
       = Some obj ->
       Pending obj = false.
Proof.
  destruct (poll_hands_out_each_command_once (Sample.objects true)
              Sample.submitted [1%positive]
              (<[1%positive := Sample.dispatched "c1" "req1" false]>
                 (Sample.objects true)))
    as (Hnodup & _ & Hflags).
  - vm_compute. reflexivity.
  - split; [exact Hnodup | exact Hflags].
Defined.

Example drain_aliased_pointer :
  drain (Sample.objects true)
    (mkRegisteredClient "a" "tok" 0 [] ∅
       {[ "c1" := 1%positive; "again" := 1%positive ]} 1)
  = Some ([1%positive],
          <[1%positive := Sample.dispatched "c1" "req1" false]> (Sample.objects true)).
Proof. vm_compute. reflexivity. Qed.

(** X15. A long poll, whatever it answers, leaves every agent's tags,
    token, last ping and both command maps as they were, registers and
    removes no agent, and on the commands changes nothing but [Pending]
    flags. *)
Theorem poll_changes_only_flags auth id (s : ServerState) r s' :
  ClientCmds auth id s = Some (r, s') ->
  (forall id', match agents s !! id', agents s' !! id' with
               | Some rc, Some rc' =>
                   RegClientId rc' = RegClientId rc
                   /\ AuthToken rc' = AuthToken rc
                   /\ LastPing rc' = LastPing rc
                   /\ Tags rc' = Tags rc
                   /\ DispatchedCmds rc' = DispatchedCmds rc
                   /\ Cmds rc' = Cmds rc
               | None, None => True
               | _, _ => False
               end)
  /\ (forall q, match heap s !! q, heap s' !! q with
                | Some obj, Some obj' => obj' = set_Pending (Pending obj') obj
                | None, None => True
                | _, _ => False
                end).
Proof.
  assert (Hsame : forall s0 : ServerState,
    (forall id', match agents s0 !! id', agents s0 !! id' with
                 | Some rc, Some rc' =>
                     RegClientId rc' = RegClientId rc
                     /\ AuthToken rc' = AuthToken rc
                     /\ LastPing rc' = LastPing rc
                     /\ Tags rc' = Tags rc
                     /\ DispatchedCmds rc' = DispatchedCmds rc
                     /\ Cmds rc' = Cmds rc
                 | None, None => True
                 | _, _ => False
                 end)
    /\ (forall q, match heap s0 !! q, heap s0 !! q with
                  | Some obj, Some obj' => obj' = set_Pending (Pending obj') obj
                  | None, None => True
                  | _, _ => False
                  end)).
  { intros s0. split.
    - intros id'. by destruct (agents s0 !! id').
    - intros q. destruct (heap s0 !! q) as [[]|]; done. }
  unfold ClientCmds.
  destruct (negb auth); [intros [= _ <-]; apply Hsame|].
  destruct (agents s !! id) as [rc|] eqn:Hid; [|done].
  destruct (len (AuthToken rc) <? 1); [intros [= _ <-]; apply Hsame|].
  destruct (CmdChan rc) as [|waiting]; [intros [= _ <-]; apply Hsame|].
  destruct (drain (heap s) rc) as [[cmds heap']|] eqn:Hdrain; [|done].
  intros [= _ <-]. cbn [agents heap]. split.
  - intros id'. destruct (decide (id' = id)) as [->|Hne].
    + by rewrite lookup_insert_eq, Hid.
    + rewrite lookup_insert_ne by done. by destruct (agents s !! id').
  - intros q.
    assert (Hvalid : pointers_valid (heap s) (Cmds rc)).
    { intros k p Hk.
      apply (drain_fold_valid _ _ _ _ _ Hdrain (k, p)).
      by apply elem_of_map_to_list. }
    destruct (drain_fold (map_to_list (Cmds rc)) [] (heap s))
      as (cmds1 & heap1 & Hfold & Hheap & _).
    { intros [k p] Hkp%elem_of_map_to_list. by eapply Hvalid. }
    unfold drain in Hdrain. rewrite Hdrain in Hfold. injection Hfold as <- <-.
    rewrite Hheap. destruct (bool_decide _); destruct (heap s !! q) as [[]|]; done.
Qed.

Lemma poll_changes_only_flags_sample :
  match ({[ "agent1" := Sample.submitted ]} : gmap string RegisteredClient) !! "agent1",
        ({[ "agent1" := mkRegisteredClient "agent1" "tok" 0 []
                          {[ "c1" := 1%positive ]} {[ "c1" := 1%positive ]} 0 ]}
           : gmap string RegisteredClient) !! "agent1" with
  | Some rc, Some rc' => Cmds rc' = Cmds rc /\ DispatchedCmds rc' = DispatchedCmds rc
  | None, None => True
  | _, _ => False
  end.
Proof.
  destruct (poll_changes_only_flags true "agent1"
              (mkServerState {[ "agent1" := Sample.submitted ]} (Sample.objects true))
              (RespCmds [1%positive])
              (mkServerState
                 {[ "agent1" := mkRegisteredClient "agent1" "tok" 0 []
                                  {[ "c1" := 1%positive ]} {[ "c1" := 1%positive ]} 0 ]}
                 (<[1%positive := Sample.dispatched "c1" "req1" false]>
                    (Sample.objects true))))
    as [Hagents _].
  { vm_compute. reflexivity. }
  specialize (Hagents "agent1"). cbn [agents] in Hagents.
  destruct (_ !! "agent1"), (_ !! "agent1"); try done. tauto.
Defined.

(** X16. A newly registered agent has no token, and its long poll is
    refused for that reason. Once [PostClientAuth] has stored a non-empty
    token, the same poll is served; the rotation changes the token and
    nothing else of the agent. *)
Theorem token_rotation_opens_poll h confToken now id tags token
    (a : gmap string RegisteredClient) (serverTags : gmap string bool)
    (heap : gmap positive Cmd) :
  a !! id = None ->
  token <> "" ->
  let s := mkServerState (RegisterClient now id tags a serverTags).1 heap in
  let rc := Update now tags (newRegisteredClient id) in
  ClientCmds true id s
  = Some (RespError ("Client " +:+ id +:+ " auth token not available"), s)
  /\ exists s',
       PostClientAuth h confToken true id (Some token) s
       = Some (AuthOK token (h (token +:+ confToken)), s')
       /\ agents s' !! id = Some (set_AuthToken token rc)
       /\ ClientCmds true id s' = Some (RespCmds [], s').
Proof.
  intros Hnew Htok s rc.
  assert (Hrc : agents s !! id = Some rc).
  { subst s. cbn [agents]. unfold RegisterClient, AgentStore.Get. rewrite Hnew.
    cbn [fst]. apply lookup_insert_eq. }
  split.
  - unfold ClientCmds. cbn [negb]. by rewrite Hrc.
  - unfold PostClientAuth. cbn [negb]. rewrite Hrc.
    eexists. split; [reflexivity|]. cbn [agents].
    split; [apply lookup_insert_eq|].
    unfold ClientCmds. cbn [negb agents]. rewrite lookup_insert_eq.
    cbn [AuthToken set_AuthToken CmdChan rc Update newRegisteredClient].
    destruct (len token <? 1) eqn:Hlen; [by apply len_lt_1 in Hlen | done].
Qed.

Lemma token_rotation_opens_poll_sample :
  exists s',
    PostClientAuth (fun x => x) "secret" true "agent1" (Some "tok")
      (mkServerState (RegisterClient 5 "agent1" ["x"] ∅ ∅).1 ∅)
    = Some (AuthOK "tok" "toksecret", s')
    /\ ClientCmds true "agent1" s' = Some (RespCmds [], s').
Proof.
  destruct (token_rotation_opens_poll (fun x => x) "secret" 5 "agent1" ["x"] "tok"
              ∅ ∅ ∅) as (_ & s' & Hauth & _ & Hpoll).
  - reflexivity.
  - discriminate.
  - exists s'. split; [exact Hauth | exact Hpoll].
Defined.

(** ** What a run of the process leaves behind *)

Lemma uploaded_output_app t1 t2 :
  uploaded_output (t1 ++ t2) = uploaded_output t1 ++ uploaded_output t2.
Proof.
  induction t1 as [|e t1 IH]; [done|].
  destruct e; simpl; rewrite IH; by rewrite ?app_assoc.
Qed.

Lemma uploaded_error_app t1 t2 :
  uploaded_error (t1 ++ t2) = uploaded_error t1 ++ uploaded_error t2.
Proof.
  induction t1 as [|e t1 IH]; [done|].
  destruct e; simpl; rewrite IH; by rewrite ?app_assoc.
Qed.

Lemma tidy_refl s : tidy s s.
Proof. split; [done|]. exists []. by rewrite app_nil_r. Qed.

Lemma tidy_trans s1 s2 s3 : tidy s1 s2 -> tidy s2 s3 -> tidy s1 s3.
Proof.
  intros [Hs1 (t1 & Ht1 & Hf1)] [Hs2 (t2 & Ht2 & Hf2)].
  split; [congruence|]. exists (t1 ++ t2). split.
  - by rewrite Ht2, Ht1, app_assoc.
  - apply Forall_app. split; [done|]. by rewrite <- Hs1.
Qed.

Lemma logs_refl s : logs [] [] s s.
Proof.
  split; [apply tidy_refl|]. split; [done|]. by rewrite !app_nil_r.
Qed.

Lemma logs_trans a b a' b' s1 s2 s3 :
  logs a b s1 s2 -> logs a' b' s2 s3 -> logs (a ++ a') (b ++ b') s1 s3.
Proof.
  intros [Ht1 (Hs1 & Ho1 & He1)] [Ht2 (Hs2 & Ho2 & He2)].
  split; [by eapply tidy_trans|]. split; [congruence|].
  rewrite Ho2, Ho1, He2, He1. by rewrite !app_assoc.
Qed.

Lemma does_bind {A B} (m : M A) (k : A -> M B) a b a' b' :
  does m (logs a b) -> (forall x, does (k x) (logs a' b')) ->
  does (let! x := m in k x) (logs (a ++ a') (b ++ b')).
Proof.
  intros Hm Hk s. destruct (Hm s) as (x & s1 & E1 & R1).
  destruct (Hk x s1) as (y & s2 & E2 & R2).
  exists y, s2. unfold bind. rewrite E1. split; [done | by eapply logs_trans].
Qed.

Lemma does_emit e :
  (forall sig, tidy_event sig e) ->
  does (emit e) (logs [] []).
Proof.
  intros He s. eexists tt, _. split; [done|]. split.
  - split; [done|]. exists [e]. split; [done|]. by apply Forall_singleton.
  - split; [done|]. cbn [trace cmd emit].
    rewrite uploaded_output_app, uploaded_error_app, !app_nil_r.
    specialize (He "").
    destruct e; simpl in *; rewrite ?app_nil_r; try done; by destruct He.
Qed.

Lemma NotifyServer_frame n g new s :
  exists st t,
    NotifyServer (S (S n)) g new s
    = Some (tt, mkSt (set_state st (cmd s))
                     ((trace s ++ t) ++ report g (cmd s) new))
    /\ (new <> "flushed_logs" -> st = new /\ t = [])
    /\ (t = [] \/ exists ece, t = [GoNext ece]).
Proof.
  destruct (SetState_frame n g new s) as (st & t & Heq & Hplain & _ & Ht).
  exists st, t. split; [|done].
  unfold NotifyServer, bind at 1. rewrite Heq.
  unfold bind, this, emit, report; cbn.
  by destruct (0 <? len (Signature (cmd s))); rewrite ?app_nil_r.
Qed.

Lemma report_tidy g c new : Forall (tidy_event (Signature c)) (report g c new).
Proof.
  unfold report. destruct (0 <? len (Signature c)) eqn:Hlen; [|done].
  apply Forall_singleton. simpl. intros Hsig. by rewrite Hsig in Hlen.
Qed.

Lemma report_uploads_nothing g c new :
  uploaded_output (report g c new) = [] /\ uploaded_error (report g c new) = [].
Proof. unfold report. by destruct (0 <? len (Signature c)). Qed.

Lemma NotifyServer_logs n g new : does (NotifyServer (S (S n)) g new) (logs [] []).
Proof.
  intros s. destruct (NotifyServer_frame n g new s) as (st & t & -> & _ & Ht).
  eexists tt, _. split; [done|].
  destruct (report_uploads_nothing g (cmd s) new) as [Hro Hre].
  split.
  - split; [done|]. exists (t ++ report g (cmd s) new).
    cbn [trace]. split; [by rewrite app_assoc|].
    apply Forall_app. split; [|apply report_tidy].
    destruct Ht as [-> | [ece ->]]; [done | by apply Forall_singleton].
  - split; [done|]. cbn [trace cmd set_state BufOutput BufOutputErr].
    rewrite !uploaded_output_app, !uploaded_error_app, Hro, Hre, !app_nil_r.
    by destruct Ht as [-> | [ece ->]]; rewrite ?app_nil_r.
Qed.

Lemma _flushLogs_logs g s :
  exists s', _flushLogs g s = Some (tt, s') /\ logs [] [] s s' /\ flushed s'.
Proof.
  destruct (decide (Signature (cmd s) = "")) as [Hsig|Hsig].
  - rewrite _flushLogs_unsigned by done. exists s.
    split; [done|]. split; [apply logs_refl|]. by intros ?.
  - rewrite _flushLogs_signed by done. eexists. split; [done|]. split; [|done].
    split.
    + split; [done|]. eexists. split; [done|]. by apply Forall_singleton.
    + split; [done|]. cbn [trace cmd set_BufOutput set_BufOutputErr BufOutput BufOutputErr].
      rewrite uploaded_output_app, uploaded_error_app. simpl.
      by rewrite !app_nil_r.
Qed.

Lemma _checkFlushLogs_logs g : does (_checkFlushLogs g) (logs [] []).
Proof.
  intros s. unfold _checkFlushLogs, bind, this.
  destruct (_ || _).
  - destruct (_flushLogs_logs g s) as (s' & -> & Hl & _). by eexists tt, _.
  - eexists tt, _. split; [done | apply logs_refl].
Qed.

Lemma LogOutput_logs g line : does (LogOutput g line) (logs [line] []).
Proof.
  unfold LogOutput. apply (does_bind _ _ [line] [] [] []); [|intros _; apply _checkFlushLogs_logs].
  intros s. eexists tt, _. split; [done|]. split.
  - split; [done|]. exists []. by rewrite app_nil_r.
  - split; [done|]. cbn. by rewrite app_nil_r, app_assoc.
Qed.

Lemma LogError_logs g line : does (LogError g line) (logs [] [line]).
Proof.
  unfold LogError. apply (does_bind _ _ [] [line] [] []); [|intros _; apply _checkFlushLogs_logs].
  intros s. eexists tt, _. split; [done|]. split.
  - split; [done|]. exists []. by rewrite app_nil_r.
  - split; [done|]. cbn. by rewrite app_nil_r, app_assoc.
Qed.

Lemma for_lines_output_logs g lines :
  does (for_lines (LogOutput g) lines) (logs lines []).
Proof.
  induction lines as [|line lines IH]; simpl.
  - intros s. eexists tt, s. split; [done | apply logs_refl].
  - apply (does_bind _ _ [line] [] lines []); [apply LogOutput_logs | by intros _].
Qed.

Lemma for_lines_error_logs g lines :
  does (for_lines (LogError g) lines) (logs [] lines).
Proof.
  induction lines as [|line lines IH]; simpl.
  - intros s. eexists tt, s. split; [done | apply logs_refl].
  - apply (does_bind _ _ [] [line] [] lines); [apply LogError_logs | by intros _].
Qed.

Lemma collect_logs_logs n g out outerr s :
  exists s', collect_logs (S (S n)) g out outerr s = Some (tt, s')
    /\ logs (SplitLines out) (SplitLines outerr) s s' /\ flushed s'.
Proof.
  unfold collect_logs.
  destruct (for_lines_output_logs g (SplitLines out) s) as ([] & s1 & E1 & L1).
  destruct (for_lines_error_logs g (SplitLines outerr) s1) as ([] & s2 & E2 & L2).
  destruct (_flushLogs_logs g s2) as (s3 & E3 & L3 & F3).
  destruct (NotifyServer_frame n g "flushed_logs" s3) as (st & t & E4 & _ & Ht).
  destruct (NotifyServer_logs n g "flushed_logs" s3) as ([] & s4 & E4' & L4).
  exists s4. unfold bind. rewrite E1, E2, E3, E4'. split; [done|]. split.
  - pose proof (logs_trans _ _ _ _ _ _ _ (logs_trans _ _ _ _ _ _ _
                  (logs_trans _ _ _ _ _ _ _ L1 L2) L3) L4) as L.
    by rewrite !app_nil_r, app_nil_l in L.
  - rewrite E4 in E4'. injection E4' as <-. exact F3.
Qed.

Lemma ends_after (m : M unit) (k : M unit) a b out err :
  does m (logs a b) -> ends k out err -> ends (m >> k) (a ++ out) (b ++ err).
Proof.
  intros Hm Hk s. destruct (Hm s) as ([] & s1 & E1 & L1).
  destruct (Hk s1) as (s2 & E2 & L2 & F2).
  exists s2. unfold bind. rewrite E1. split; [done|].
  split; [by eapply logs_trans | done].
Qed.

Lemma does_after (m : M unit) (k : M unit) :
  does m (logs [] []) -> does k (logs [] []) -> does (m >> k) (logs [] []).
Proof. intros Hm Hk. apply (does_bind m (fun _ => k) [] [] [] []); [done | by intros _]. Qed.

Lemma does_ret : does (ret tt) (logs [] []).
Proof. intros s. exists tt, s. split; [done | apply logs_refl]. Qed.

Lemma collect_logs_ends n g out outerr :
  ends (collect_logs (S (S n)) g out outerr) (SplitLines out) (SplitLines outerr).
Proof. intros s. apply collect_logs_logs. Qed.

(** What [spawn] does after [cmd.Start()]. *)
Lemma spawn_logs n g p s :
  exists s' t,
    spawn (S (S n)) g p s = Some (tt, s')
    /\ trace s' = trace s ++ StartProcess :: t
    /\ Forall (tidy_event (Signature (cmd s))) t
    /\ Signature (cmd s') = Signature (cmd s)
    /\ match logged p with
       | Some (out, err) => conserves out err s s' /\ flushed s'
       | None => conserves [] [] s s'
       end.
Proof.
  set (s0 := mkSt (cmd s) (trace s ++ [StartProcess])).
  assert (Hs0 : logs [] [] s s0).
  { destruct (does_emit StartProcess (fun _ => I) s) as ([] & s1 & E & L).
    by injection E as <-. }
  assert (Hfinish : forall s' out err,
            logs out err s0 s' ->
            exists t, trace s' = trace s ++ StartProcess :: t
              /\ Forall (tidy_event (Signature (cmd s))) t
              /\ Signature (cmd s') = Signature (cmd s)
              /\ conserves out err s s').
  { intros s' out err L. pose proof (logs_trans _ _ _ _ _ _ _ Hs0 L) as [_ Hc].
    destruct L as [[Hsig (t & Ht & Hf)] _]. exists t.
    split; [by rewrite Ht; subst s0; cbn; rewrite <- app_assoc|].
    split; [done|]. split; [done|]. by rewrite !app_nil_l in Hc. }
  unfold spawn, bind at 1, emit at 1. fold s0.
  destruct p as [|[|] out outerr|[err|] out outerr]; cbn [logged negb].
  - destruct (NotifyServer_logs n g "failed_execution" s0) as ([] & s' & E & L).
    destruct (Hfinish _ _ _ L) as (t & ? & ? & ? & ?). by exists s', t.
  - destruct (ends_after _ _ [] [] _ _ (NotifyServer_logs n g "started_execution")
                (ends_after _ _ [] [] _ _ (does_emit KillProcess (fun _ => I))
                   (ends_after _ _ [] [] _ _ (NotifyServer_logs n g "killed_execution")
                      (collect_logs_ends n g out outerr))) s0) as (s' & E & L & F).
    destruct (Hfinish _ _ _ L) as (t & ? & ? & ? & ?). by exists s', t.
  - destruct (does_after _ _ (NotifyServer_logs n g "started_execution")
                (does_after _ _ (does_emit KillProcess (fun _ => I)) does_ret) s0)
      as ([] & s' & E & L).
    destruct (Hfinish _ _ _ L) as (t & ? & ? & ? & ?). by exists s', t.
  - destruct (ends_after _ _ [] [] _ _ (NotifyServer_logs n g "started_execution")
                (ends_after _ _ [] [] _ _ (NotifyServer_logs n g "failed_execution")
                   (ends_after _ _ [] [err] _ _ (LogError_logs g err)
                      (collect_logs_ends n g out outerr))) s0) as (s' & E & L & F).
    destruct (Hfinish _ _ _ L) as (t & ? & ? & ? & ?). by exists s', t.
  - destruct (ends_after _ _ [] [] _ _ (NotifyServer_logs n g "started_execution")
                (ends_after _ _ [] [] _ _ (NotifyServer_logs n g "finished_execution")
                   (collect_logs_ends n g out outerr)) s0) as (s' & E & L & F).
    destruct (Hfinish _ _ _ L) as (t & ? & ? & ? & ?). by exists s', t.
Qed.



Lemma no_request_uploads_nothing t :
  Forall (fun e => ~ is_request e) t ->
  uploaded_output t = [] /\ uploaded_error t = [].
Proof.
  induction 1 as [|e t He _ IH]; [done|].
  destruct e; simpl in *; try done.
Qed.

Section Runs.
Context `{Crypto}.

Lemma Execute_accepted n g cl p c :
  accepted cl c ->
  run (Execute (S n) g cl p) c
  = (spawn (S n) g p >> emit RemoveFile)
      (mkSt (set_state "starting" c)
            ((report g c "validating" ++ report g c "starting")
             ++ [WriteFile (script c)])).
Proof.
  intros Hacc. unfold run, Execute. unfold bind at 1.
  rewrite NotifyServer_plain by done. unfold bind at 1, this at 1.
  cbn [cmd trace app].
  assert (Hinv : match cl with
                 | Some cl =>
                     negb (eqs (ComputeHmac (set_state "validating" c)
                                  (ClientAuthToken cl))
                               (Signature (set_state "validating" c)))
                     || (len (Signature (set_state "validating" c)) <? 1)
                 | None => false
                 end = false).
  { destruct cl as [client|]; [|done]. by apply (signature_check client c). }
  rewrite Hinv. unfold bind at 1. rewrite NotifyServer_plain by done.
  unfold bind at 1, this at 1. unfold bind at 1, emit at 1.
  reflexivity.
Qed.

Lemma Execute_rejected n g client p c :
  ~ signature_valid client c ->
  run (Execute (S n) g (Some client) p) c
  = Some (tt, mkSt (set_state "invalid_signature" c)
                   ((report g c "validating" ++ report g c "invalid_signature")
                    ++ [AuthServer])).
Proof.
  intros Hnot. unfold run, Execute. unfold bind at 1.
  rewrite NotifyServer_plain by done. unfold bind at 1, this at 1.
  cbn [cmd trace app].
  destruct (negb _ || _) eqn:Hinv.
  - unfold bind at 1. by rewrite NotifyServer_plain.
  - destruct Hnot. by apply (signature_check client c).
Qed.

Lemma Execute_accepted_trace n g cl p c :
  accepted cl c ->
  exists s' t,
    run (Execute (S (S n)) g cl p) c = Some (tt, s')
    /\ trace s' = (report g c "validating" ++ report g c "starting")
                  ++ [WriteFile (script c); StartProcess] ++ t ++ [RemoveFile]
    /\ Forall (tidy_event (Signature c)) t.
Proof.
  intros Hacc. rewrite Execute_accepted by done. unfold bind at 1.
  match goal with
  | |- context [spawn _ _ _ ?s] =>
      destruct (spawn_logs n g p s) as (s1 & t & -> & Ht & Hf & _)
  end.
  eexists _, t. split; [reflexivity|]. split; [|done].
  cbn [trace emit cmd]. rewrite Ht. cbn [trace]. by rewrite <- !app_assoc.
Qed.

(** X17. Whenever [Execute] goes on to run a command, on every outcome of
    the process, it writes the script (the line [#!/bin/bash] followed by
    the command text) once, before the process is started, and removes it
    as its very last step; in between there is no file operation and no
    re-authentication. *)
Theorem Execute_writes_and_removes_script n g cl p c :
  accepted cl c ->
  exists s' t,
    run (Execute (S (S n)) g cl p) c = Some (tt, s')
    /\ trace s' = (report g c "validating" ++ report g c "starting")
                  ++ [WriteFile (script c); StartProcess] ++ t ++ [RemoveFile]
    /\ Forall (tidy_event (Signature c)) t.
Proof. apply Execute_accepted_trace. Qed.

(** X18. [Execute] with a nil client checks no signature: every command,
    signed or not, gets its process started, and [AuthServer] is never
    called. *)
Theorem Execute_nil_client_runs_anything n g p c :
  exists s', run (Execute (S (S n)) g None p) c = Some (tt, s')
    /\ StartProcess ∈ trace s'
    /\ AuthServer ∉ trace s'.
Proof.
  destruct (Execute_accepted_trace n g None p c I)
    as (s' & t & Hrun & Ht & Hf).
  exists s'. split; [done|]. rewrite Ht. split.
  - apply elem_of_app. right. right. left.
  - intros Hin. pose proof (report_tidy g c "validating") as H1.
    pose proof (report_tidy g c "starting") as H2.
    repeat (apply elem_of_app in Hin as [Hin|Hin]).
    + by apply (proj1 (Forall_forall _ _) H1) in Hin.
    + by apply (proj1 (Forall_forall _ _) H2) in Hin.
    + apply elem_of_cons in Hin as [?|Hin]; [done|].
      by apply list_elem_of_singleton in Hin.
    + by apply (proj1 (Forall_forall _ _) Hf) in Hin.
    + by apply list_elem_of_singleton in Hin.
Qed.
End Runs.

Section Outcomes.
Context `{Crypto}.

(** X19. When the process cannot be started, or cannot be killed after the
    timeout, [Execute] goes straight to the removal of the script: the
    command is left in [failed_execution], respectively
    [started_execution], nothing is logged or uploaded, and [flushed_logs]
    is never reported. *)
Theorem Execute_failure_paths n g cl c out outerr :
  accepted cl c ->
  run (Execute (S n) g cl StartFailed) c
  = Some (tt, mkSt (set_state "failed_execution" c)
                   ((report g c "validating" ++ report g c "starting")
                    ++ [WriteFile (script c); StartProcess]
                    ++ report g c "failed_execution" ++ [RemoveFile]))
  /\ run (Execute (S n) g cl (TimedOut false out outerr)) c
     = Some (tt, mkSt (set_state "started_execution" c)
                      ((report g c "validating" ++ report g c "starting")
                       ++ [WriteFile (script c); StartProcess]
                       ++ report g c "started_execution"
                       ++ [KillProcess; RemoveFile])).
Proof.
  intros Hacc. split; rewrite Execute_accepted by done.
  - unfold spawn, bind at 1, bind at 1, emit at 1.
    rewrite NotifyServer_plain by done. cbn [emit cmd trace].
    change (report g (set_state "starting" c)) with (report g c).
    unfold emit. cbn [cmd trace]. rewrite <- !app_assoc. reflexivity.
  - unfold spawn, bind at 1, bind at 1, emit at 1. unfold bind at 1.
    rewrite NotifyServer_plain by done. cbn [negb].
    change (report g (set_state "starting" c)) with (report g c).
    unfold bind, emit, ret. cbn [cmd trace]. rewrite <- !app_assoc. reflexivity.
Qed.



(** X22. A command signed by the coordinator under an agent's token is run
    by an agent holding the same token exactly when the token decodes as
    base64url and the encoded mac is not empty. Signing under a token that
    does not decode leaves the signature empty, and the command is
    rejected. *)
Theorem signed_command_runs_under_same_token n g p rc client c :
  ClientAuthToken client = AuthToken rc ->
  exists s', run (Execute (S (S n)) g (Some client) p) (Sign c rc) = Some (tt, s')
    /\ (StartProcess ∈ trace s'
        <-> exists key, URLEncoding_DecodeString (AuthToken rc) = Some key
              /\ URLEncoding_EncodeToString (hmac_sha256 key (Command c +:+ Id c))
                 <> "")
    /\ (URLEncoding_DecodeString (AuthToken rc) = None ->
        Signature (Sign c rc) = "" /\ state (cmd s') = "invalid_signature").
Proof.
  intros Htok.
  assert (Hvalid : signature_valid client (Sign c rc)
            <-> exists key, URLEncoding_DecodeString (AuthToken rc) = Some key
                  /\ URLEncoding_EncodeToString (hmac_sha256 key (Command c +:+ Id c))
                     <> "").
  { unfold signature_valid, Sign, ComputeHmac. cbn [Signature Command Id].
    rewrite Htok. destruct (URLEncoding_DecodeString (AuthToken rc)) as [key|].
    - split.
      + intros [Hne _]. by exists key.
      + intros (key' & [= <-] & Hne). split; [done|]. by exists key.
    - split; [by intros [? _] | by intros (? & ? & _)]. }
  assert (Hdec : signature_valid client (Sign c rc)
                 \/ ~ signature_valid client (Sign c rc)).
  { pose proof (signature_check client (Sign c rc)) as Hcheck.
    destruct (negb _ || _); [right | left; by apply Hcheck].
    intros Hv. apply Hcheck in Hv. discriminate. }
  destruct Hdec as [Hyes|Hno].
  - destruct (Execute_accepted_trace n g (Some client) p (Sign c rc) Hyes)
      as (s' & t & Hrun & Ht & _).
    exists s'. split; [done|]. split.
    + split; [by intros _; apply Hvalid|]. intros _. rewrite Ht.
      apply elem_of_app. right. right. left.
    + intros Hnone. apply Hvalid in Hyes as (key & Hkey & _). congruence.
  - rewrite Execute_rejected by done. eexists. split; [reflexivity|].
    cbn [trace cmd]. split.
    + split; [|by intros ?%Hvalid]. intros Hin. exfalso.
      pose proof (report_tidy g (Sign c rc) "validating") as H1.
      pose proof (report_tidy g (Sign c rc) "invalid_signature") as H2.
      repeat (apply elem_of_app in Hin as [Hin|Hin]).
      * apply (proj1 (Forall_forall _ _) H1) in Hin as Hev.
        unfold report in Hin. destruct (0 <? _); [|by apply elem_of_nil in Hin].
        by apply list_elem_of_singleton in Hin.
      * unfold report in Hin. destruct (0 <? _); [|by apply elem_of_nil in Hin].
        by apply list_elem_of_singleton in Hin.
      * by apply list_elem_of_singleton in Hin.
    + intros Hnone. split; [|done].
      unfold Sign, ComputeHmac. cbn [Signature]. by rewrite Hnone.
Qed.
End Outcomes.

Lemma Execute_writes_and_removes_script_sample :
  exists s' t,
    run (@Execute Sample.toy 2 Sample.agent_only None (Exited None "hi" ""))
        (Sample.command "pending" "sig" [] [])
    = Some (tt, s')
    /\ trace s'
       = ([PutState "agent1" "c1" "validating"] ++ [PutState "agent1" "c1" "starting"])
         ++ [WriteFile (script (Sample.command "pending" "sig" [] [])); StartProcess]
         ++ t ++ [RemoveFile].
Proof.
  destruct (@Execute_writes_and_removes_script Sample.toy 0 Sample.agent_only None
              (Exited None "hi" "") (Sample.command "pending" "sig" [] []) I)
    as (s' & t & Hrun & Htrace & _).
  exists s', t. split; [exact Hrun | exact Htrace].
Defined.

Lemma Execute_failure_paths_sample :
  run (@Execute Sample.toy 1 Sample.agent_only None StartFailed)
      (Sample.command "pending" "sig" ["kept"] [])
  = Some (tt, mkSt (Sample.command "failed_execution" "sig" ["kept"] [])
        [PutState "agent1" "c1" "validating";
         PutState "agent1" "c1" "starting";
         WriteFile (script (Sample.command "pending" "sig" ["kept"] []));
         StartProcess;
         PutState "agent1" "c1" "failed_execution";
         RemoveFile]).
Proof.
  apply (@Execute_failure_paths Sample.toy 0 Sample.agent_only None
           (Sample.command "pending" "sig" ["kept"] []) "" "" I).
Defined.



Lemma signed_command_runs_under_same_token_sample :
  exists s',
    run (@Execute Sample.toy 2 Sample.agent_only (Some (mkClient "agent1" "tok"))
           (Exited None "" ""))
        (@Sign Sample.toy (Sample.command "pending" "" [] [])
               (Sample.agent "agent1" 0 []))
    = Some (tt, s')
    /\ StartProcess ∈ trace s'.
Proof.
  destruct (@signed_command_runs_under_same_token Sample.toy 0 Sample.agent_only
              (Exited None "" "") (Sample.agent "agent1" 0 [])
              (mkClient "agent1" "tok") (Sample.command "pending" "" [] [])
              eq_refl) as (s' & Hrun & Hiff & _).
  exists s'. split; [exact Hrun|]. apply Hiff.
  exists "tok". split; [reflexivity | discriminate].
Defined.

(** ** Buffers and rules *)

(** X23. Logging a stdout line on a signed command uploads exactly when,
    with the new line, the stdout buffer holds more than ten lines or the
    stderr buffer already does; the upload carries both buffers and empties
    both. Otherwise the line is only appended. [LogError] is the same with
    the two buffers exchanged. *)
Theorem logging_uploads_past_ten_lines g line c :
  Signature c <> "" ->
  (exists s', run (LogOutput g line) c = Some (tt, s')
     /\ ((10 <= length (BufOutput c) \/ 11 <= length (BufOutputErr c))%nat ->
         s' = mkSt (set_BufOutputErr [] (set_BufOutput [] c))
                   [PutLogs (AgentId (client g)) (Id c)
                            (BufOutput c ++ [line]) (BufOutputErr c)])
     /\ ((length (BufOutput c) < 10 /\ length (BufOutputErr c) < 11)%nat ->
         s' = mkSt (set_BufOutput (BufOutput c ++ [line]) c) []))
  /\ (exists s', run (LogError g line) c = Some (tt, s')
        /\ ((11 <= length (BufOutput c) \/ 10 <= length (BufOutputErr c))%nat ->
            s' = mkSt (set_BufOutputErr [] (set_BufOutput [] c))
                      [PutLogs (AgentId (client g)) (Id c)
                               (BufOutput c) (BufOutputErr c ++ [line])])
        /\ ((length (BufOutput c) < 11 /\ length (BufOutputErr c) < 10)%nat ->
            s' = mkSt (set_BufOutputErr (BufOutputErr c ++ [line]) c) [])).
Proof.
  intros Hsig. split.
  - rewrite LogOutput_run by done. eexists. split; [reflexivity|].
    rewrite length_app. cbn [length].
    destruct (_ || _) eqn:Hb.
    + split; [done|]. intros [H1 H2].
      apply orb_true_iff in Hb as [Hb|Hb]; apply Z.ltb_lt in Hb; lia.
    + split; [|done]. intros Hor.
      apply orb_false_iff in Hb as [Hb1 Hb2].
      apply Z.ltb_ge in Hb1, Hb2. lia.
  - unfold run, LogError, _checkFlushLogs, bind, update, this; simpl.
    rewrite length_app. cbn [length].
    destruct (_ || _) eqn:Hb.
    + rewrite _flushLogs_signed by done. eexists. split; [reflexivity|].
      split; [done|]. intros [H1 H2].
      apply orb_true_iff in Hb as [Hb|Hb]; apply Z.ltb_lt in Hb; lia.
    + eexists. split; [reflexivity|]. split; [|done]. intros Hor.
      apply orb_false_iff in Hb as [Hb1 Hb2].
      apply Z.ltb_ge in Hb1, Hb2. lia.
Qed.

Lemma logging_uploads_past_ten_lines_sample :
  exists s',
    run (LogOutput Sample.agent_only "11")
        (Sample.command "started_execution" "sig" (Sample.nine ++ ["10"]) [])
    = Some (tt, s')
    /\ s' = mkSt (Sample.command "started_execution" "sig" [] [])
                 [PutLogs "agent1" "c1" (Sample.nine ++ ["10"; "11"]) []].
Proof.
  destruct (logging_uploads_past_ten_lines Sample.agent_only "11"
              (Sample.command "started_execution" "sig" (Sample.nine ++ ["10"]) []))
    as [(s' & Hrun & Hup & _) _].
  - discriminate.
  - exists s'. split; [exact Hrun|]. apply Hup. left. simpl. lia.
Defined.

(** X24. [newExecutionValidation] returns nil exactly when the stream is
    neither 1 nor 2 or the text is empty; in every other case it returns a
    rule with the given text and the generated id. *)
Theorem newExecutionValidation_nil_iff uuid txt fatal mustContain stream :
  (newExecutionValidation uuid txt fatal mustContain stream = None
   <-> (stream <> 1 /\ stream <> 2) \/ txt = "")
  /\ (forall r, newExecutionValidation uuid txt fatal mustContain stream = Some r ->
        Text r = txt /\ RuleId r = uuid).
Proof.
  unfold newExecutionValidation. split.
  - assert (Htxt : (len txt <? 1) = true <-> txt = "") by apply len_lt_1.
    destruct (Z.eqb_spec stream 1) as [E1|N1];
      destruct (Z.eqb_spec stream 2) as [E2|N2]; cbn [negb andb];
      destruct (len txt <? 1); split; try done; intuition (try lia; try congruence).
  - intros r. destruct (_ && _); [done|]. destruct (len txt <? 1); [done|].
    by intros [= <-].
Qed.

(** ** Retries of the agent *)

Lemma req_loop_first_success reqUnsafe rand k b :
  forall left i bytes err slept,
  (k < left)%nat ->
  (forall j, (j < k)%nat -> exists e, reqUnsafe (i + j)%nat = HttpClient.Failure e) ->
  reqUnsafe (i + k)%nat = HttpClient.Body b ->
  HttpClient.req_loop reqUnsafe rand left i bytes err slept
  = (Some b, None,
     slept ++ map (fun j => 25 + rand j + Z.of_nat j ^ 2 * 10000) (seq i k)).
Proof.
  induction k as [|k IH]; intros left i bytes err slept Hlt Hfail Hok.
  - destruct left as [|left]; [lia|]. cbn [HttpClient.req_loop].
    rewrite Nat.add_0_r in Hok. rewrite Hok. simpl. by rewrite app_nil_r.
  - destruct left as [|left]; [lia|]. cbn [HttpClient.req_loop].
    destruct (Hfail 0%nat) as [e He]; [lia|]. rewrite Nat.add_0_r in He. rewrite He.
    rewrite (IH left (S i)); [| lia | |].
    + cbn [seq map]. by rewrite <- app_assoc.
    + intros j Hj. destruct (Hfail (S j)) as [e' He']; [lia|].
      exists e'. by rewrite <- He', Nat.add_succ_r.
    + by rewrite <- Hok, Nat.add_succ_r.
Qed.

(** X25. [_req] makes its requests one after the other and returns the
    body of the first that succeeds, without error, if that is one of the
    first ten; before it, it has slept once after every failed request,
    [25 + rand + 10000 * i * i] milliseconds after the failure of request
    [i] (counted from 0). Later outcomes play no role. *)
Theorem _req_returns_first_success reqUnsafe rand k b :
  (k < 10)%nat ->
  (forall j, (j < k)%nat -> exists e, reqUnsafe j = HttpClient.Failure e) ->
  reqUnsafe k = HttpClient.Body b ->
  HttpClient._req reqUnsafe rand
  = (Some b, None,
     map (fun j => 25 + rand j + Z.of_nat j ^ 2 * 10000) (seq 0 k)).
Proof.
  intros Hlt Hfail Hok. unfold HttpClient._req.
  by rewrite (req_loop_first_success reqUnsafe rand k b).
Qed.

Lemma _req_returns_first_success_sample :
  HttpClient._req
    (fun i => if (i <? 2)%nat then HttpClient.Failure "refused"
              else HttpClient.Body "{}")
    (fun _ => 7)
  = (Some "{}", None, [32; 10032]).
Proof.
  apply (_req_returns_first_success
           (fun i => if (i <? 2)%nat then HttpClient.Failure "refused"
                     else HttpClient.Body "{}")
           (fun _ => 7) 2 "{}").
  - lia.
  - intros j Hj. exists "refused".
    destruct j as [|[|j]]; [reflexivity | reflexivity | lia].
  - reflexivity.
Defined.

(** X26. When the first ten requests all fail, [_req] gives up: it returns
    no body and the error of the tenth request. It has then slept ten
    times, the last time after the final failure, and with [rand] values
    between 0 and 49 the sleeps add up to between 2850250 and 2850740
    milliseconds. *)
Theorem _req_gives_up_after_ten reqUnsafe rand :
  (forall j, (j < 10)%nat -> exists e, reqUnsafe j = HttpClient.Failure e) ->
  (forall j, 0 <= rand j < 50) ->
  exists e slept,
    reqUnsafe 9%nat = HttpClient.Failure e
    /\ HttpClient._req reqUnsafe rand = (None, Some e, slept)
    /\ length slept = 10%nat
    /\ last slept = Some (25 + rand 9%nat + 810000)
    /\ 2850250 <= foldr Z.add 0 slept <= 2850740.
Proof.
  intros Hfail Hrand.
  destruct (Hfail 0%nat) as [e0 H0]; [lia|].
  destruct (Hfail 1%nat) as [e1 H1]; [lia|].
  destruct (Hfail 2%nat) as [e2 H2]; [lia|].
  destruct (Hfail 3%nat) as [e3 H3]; [lia|].
  destruct (Hfail 4%nat) as [e4 H4]; [lia|].
  destruct (Hfail 5%nat) as [e5 H5]; [lia|].
  destruct (Hfail 6%nat) as [e6 H6]; [lia|].
  destruct (Hfail 7%nat) as [e7 H7]; [lia|].
  destruct (Hfail 8%nat) as [e8 H8]; [lia|].
  destruct (Hfail 9%nat) as [e9 H9]; [lia|].
  exists e9. eexists. split; [done|]. split.
  - unfold HttpClient._req. cbn [HttpClient.req_loop].
    rewrite H0, H1, H2, H3, H4, H5, H6, H7, H8, H9. reflexivity.
  - split; [reflexivity|]. split; [reflexivity|].
    cbn [app foldr].
    pose proof (Hrand 0%nat). pose proof (Hrand 1%nat). pose proof (Hrand 2%nat).
    pose proof (Hrand 3%nat). pose proof (Hrand 4%nat). pose proof (Hrand 5%nat).
    pose proof (Hrand 6%nat). pose proof (Hrand 7%nat). pose proof (Hrand 8%nat).
    pose proof (Hrand 9%nat).
    change (Z.of_nat 0 ^ 2) with 0. change (Z.of_nat 1 ^ 2) with 1.
    change (Z.of_nat 2 ^ 2) with 4. change (Z.of_nat 3 ^ 2) with 9.
    change (Z.of_nat 4 ^ 2) with 16. change (Z.of_nat 5 ^ 2) with 25.
    change (Z.of_nat 6 ^ 2) with 36. change (Z.of_nat 7 ^ 2) with 49.
    change (Z.of_nat 8 ^ 2) with 64. change (Z.of_nat 9 ^ 2) with 81.
    lia.
Qed.

Lemma _req_gives_up_after_ten_sample :
  exists e slept,
    HttpClient._req (fun _ => HttpClient.Failure "refused") (fun _ => 0)
    = (None, Some e, slept)
    /\ 2850250 <= foldr Z.add 0 slept <= 2850740.
Proof.
  destruct (_req_gives_up_after_ten (fun _ => HttpClient.Failure "refused")
              (fun _ => 0)) as (e & slept & _ & Hrun & _ & _ & Hsum).
  - intros j _. by exists "refused".
  - intros j. lia.
  - exists e, slept. split; [exact Hrun | exact Hsum].
Defined.

(** ** Listing the dispatched commands *)

Lemma Commands_values c : Commands c = (map_to_list (DispatchedCmds c)).*2.
Proof.
  unfold Commands.
  assert (Hgen : forall (l : list (string * positive)) acc,
            foldl (fun commands kv => commands ++ [kv.2]) acc l = acc ++ l.*2).
  { induction l as [|kv l IH]; intros acc; cbn [foldl].
    - by rewrite app_nil_r.
    - rewrite IH, fmap_cons, <- app_assoc. done. }
  by rewrite Hgen.
Qed.

Lemma list_commands_fold (a : gmap string RegisteredClient)
    (l : list (string * RegisteredClient)) :
  (forall k c, (k, c) ∈ l -> a !! k = Some c) ->
  forall (m : gmap string (list positive)) k,
  foldl (fun commands kv => <[kv.1 := Commands kv.2]> commands) m l !! k
  = if bool_decide (k ∈ l.*1) then Commands <$> a !! k else m !! k.
Proof.
  intros Hl. induction l as [|[k0 c0] l IH]; intros m k; cbn [foldl].
  - rewrite bool_decide_eq_false_2; [done | by intros ?%elem_of_nil].
  - rewrite IH by (intros k' c' Hin; apply Hl; by right).
    rewrite fmap_cons. cbn [fst snd].
    destruct (decide (k ∈ l.*1)) as [Hin|Hnin].
    + by rewrite !bool_decide_eq_true_2; [|by right|done].
    + rewrite (bool_decide_eq_false_2 _ Hnin).
      destruct (decide (k = k0)) as [->|Hne].
      * rewrite bool_decide_eq_true_2 by left.
        rewrite lookup_insert_eq, (Hl k0 c0) by left. done.
      * rewrite bool_decide_eq_false_2 by (by intros [?|?]%elem_of_cons).
        by rewrite lookup_insert_ne.
Qed.

(** X27. [ListCommands] has an entry for exactly the registered agents,
    and an agent's entry, its [Commands()], holds one pointer for each id
    of its [DispatchedCmds] and nothing else. *)
Theorem ListCommands_lists_dispatched (a : gmap string RegisteredClient) id c :
  ListCommands a !! id = Commands <$> a !! id
  /\ length (Commands c) = size (DispatchedCmds c)
  /\ forall p, p ∈ Commands c <-> exists k, DispatchedCmds c !! k = Some p.
Proof.
  split; [|split].
  - unfold ListCommands. rewrite (list_commands_fold a).
    + case_bool_decide as Hin; [done|]. rewrite lookup_empty.
      destruct (a !! id) as [c0|] eqn:Hid; [|done].
      destruct Hin. apply list_elem_of_fmap. exists (id, c0).
      split; [done | by apply elem_of_map_to_list].
    + intros k c0 Hin. by apply elem_of_map_to_list.
  - by rewrite Commands_values, length_fmap, length_map_to_list.
  - intros p. rewrite Commands_values, list_elem_of_fmap. split.
    + intros ([k q] & -> & Hin). exists k. by apply elem_of_map_to_list.
    + intros [k Hk]. exists (k, p). split; [done | by apply elem_of_map_to_list].
Qed.

(** ** Validation that does not take place *)

(** X28. On the transition from [finished_execution] to [flushed_logs]:
    where the server is not enabled, or the command's template is not in
    the store, nothing is validated, the command stays in [flushed_logs]
    and no next iteration is started; and a template without rules lets
    every command pass to [finished]. *)
Theorem validation_edge_cases n g c :
  state c = "finished_execution" ->
  ((ServerEnabled (conf g) = false \/ templateStore g !! TemplateId c = None) ->
   run (SetState (S (S n)) g "flushed_logs") c
   = Some (tt, mkSt (set_state "flushed_logs" c) []))
  /\ (ServerEnabled (conf g) = true ->
      templateStore g !! TemplateId c = Some (mkTemplate []) ->
      run (SetState (S (S n)) g "flushed_logs") c
      = Some (tt, mkSt (set_state "finished" c) (next_iteration g c))).
Proof.
  intros Hst. unfold run. rewrite SetState_flushed_finished by done.
  unfold _validate. split.
  - intros [Hoff|Hno].
    + by rewrite validate_with_off.
    + by rewrite validate_with_no_template.
  - intros Hon Htmpl. erewrite validate_with_run by done. reflexivity.
Qed.

Lemma validation_edge_cases_sample :
  run (SetState 2 Sample.agent_only "flushed_logs")
      (Sample.command "finished_execution" "sig" ["out"] [])
  = Some (tt, mkSt (Sample.command "flushed_logs" "sig" ["out"] []) []).
Proof.
  destruct (validation_edge_cases 0 Sample.agent_only
              (Sample.command "finished_execution" "sig" ["out"] []) eq_refl)
    as [Hskip _].
  apply Hskip. by left.
Defined.
